(** * Volume assembly of the PACS volume viewer

    A shallow embedding of [createVolumeViewport] and [sortImages] from
    [src/components/VolumeViewer/volumeRenderer.ts] (the slice sorter, the
    pixel-kind selection and the voxel buffer fill), together with the parts
    of the JavaScript runtime they rely on: typed arrays with
    [TypedArray.prototype.set], [Map], the [||] operator and thrown errors.
    The second half embeds the code around them: the upload and mouse
    handlers of the component, the tool bindings, the SVG cursors, the
    one-time initialization and the assembly of the earlier viewer.

    Conventions of the embedding:
    - a JavaScript [number] that carries a physical quantity (spacing,
      position, thickness) is a rational [Q]; NaN and the infinities are not
      represented;
    - [rows], [columns] and array lengths are natural numbers;
    - a typed array is its constructor together with the list of its
      elements, each element being the raw bit pattern stored for it (a
      w-bit integer as [Z]); its byte view is little-endian;
    - code that can throw returns a [Result]. *)

From Stdlib Require Import ZArith QArith Ascii.
From stdpp Require Import base option list strings gmap pretty sorting.

Close Scope Q_scope.

(** ** Thrown errors *)

(** The errors that can reach the caller: the two the runtime raises in this
    code, and any error an application or a collaborator names itself. *)
Inductive JsError :=
  | TypeError
  | RangeError
  | NamedError (name : string).

Inductive Result (A : Type) :=
  | Ok (a : A)
  | Throw (e : JsError).
Arguments Ok {A} a.
Arguments Throw {A} e.

#[global] Instance Result_ret : MRet Result := λ A a, Ok a.
#[global] Instance Result_bind : MBind Result := λ A B k r,
  match r with
  | Ok a => k a
  | Throw e => Throw e
  end.

#[global] Instance JsError_eq_dec : EqDecision JsError.
Proof. solve_decision. Defined.

(** ** Typed arrays *)

Module TypedArrays.
Local Open Scope Z_scope.

(** The constructors [getPixelData] can return, in the order of the union in
    [types.ts]. *)
Inductive PixelKind :=
  | Int16Array
  | Uint16Array
  | Float32Array
  | Int8Array
  | Uint8Array.

#[global] Instance PixelKind_eq_dec : EqDecision PixelKind.
Proof. solve_decision. Defined.

Definition BYTES_PER_ELEMENT (k : PixelKind) : nat :=
  match k with
  | Int16Array | Uint16Array => 2%nat
  | Float32Array => 4%nat
  | Int8Array | Uint8Array => 1%nat
  end.

Definition bitWidth (k : PixelKind) : Z := 8 * Z.of_nat (BYTES_PER_ELEMENT k).

Record TypedArray := mkTypedArray {
  constructor : PixelKind;
  elements : list Z
}.

(** [new K(n)]: [n] elements, all bits zero. *)
Definition newTypedArray (k : PixelKind) (n : nat) : TypedArray :=
  mkTypedArray k (replicate n 0).

Definition arrayLength (a : TypedArray) : nat := length (elements a).

(** Two's complement reading of a [w]-bit pattern. *)
Definition signed (w raw : Z) : Z :=
  let r := raw mod 2 ^ w in
  if r <? 2 ^ (w - 1) then r else r - 2 ^ w.

(** A binary32 pattern read as a number and truncated toward zero; NaN and
    the infinities give 0, as the integer conversions of the runtime do. *)
Definition f32Trunc (raw : Z) : Z :=
  let b := raw mod 2 ^ 32 in
  let e := Z.land (Z.shiftr b 23) 255 in
  let m := Z.land b (2 ^ 23 - 1) + 2 ^ 23 in
  if e =? 255 then 0
  else if e <? 127 then 0
  else
    let mag := if 150 <=? e then Z.shiftl m (e - 150) else Z.shiftr m (150 - e) in
    if Z.testbit b 31 then - mag else mag.

(** The binary32 pattern of an integer of magnitude below 2^24 (every value
    of the integer kinds), which binary32 represents exactly. *)
Definition f32OfInt (v : Z) : Z :=
  if v =? 0 then 0
  else
    let a := Z.abs v in
    let e := Z.log2 a in
    let frac := Z.land (Z.shiftl a (23 - e)) (2 ^ 23 - 1) in
    Z.lor (if v <? 0 then 2 ^ 31 else 0) (Z.lor (Z.shiftl (e + 127) 23) frac).

(** The integer an element stands for once truncated toward zero. *)
Definition truncatedValue (k : PixelKind) (raw : Z) : Z :=
  match k with
  | Int16Array => signed 16 raw
  | Uint16Array => raw mod 2 ^ 16
  | Float32Array => f32Trunc raw
  | Int8Array => signed 8 raw
  | Uint8Array => raw mod 2 ^ 8
  end.

(** What [set] stores for one source element: the bits themselves when both
    arrays have the same constructor, otherwise the element's numeric value
    converted to the target's element type (modulo 2^w for an integer
    target, exact for a binary32 target, whose source is then an integer
    kind). *)
Definition convertElement (src dst : PixelKind) (raw : Z) : Z :=
  if decide (src = dst) then raw
  else match dst with
       | Float32Array => f32OfInt (truncatedValue src raw)
       | _ => truncatedValue src raw mod 2 ^ bitWidth dst
       end.

(** [target.set(source, offset)]: a RangeError when the source does not fit
    behind [offset], otherwise the converted elements overwrite the target
    from [offset] on. *)
Definition set (target source : TypedArray) (offset : nat) : Result TypedArray :=
  if decide (arrayLength target < arrayLength source + offset)%nat
  then Throw RangeError
  else Ok (mkTypedArray (constructor target)
             (list_inserts offset
                (convertElement (constructor source) (constructor target)
                   <$> elements source)
                (elements target))).

(** Little-endian bytes of one element and the byte view of an array. *)
Fixpoint leBytes (n : nat) (raw : Z) : list Z :=
  match n with
  | O => []
  | S n' => raw mod 256 :: leBytes n' (raw / 256)
  end.

Definition bytesOf (a : TypedArray) : list Z :=
  elements a ≫= leBytes (BYTES_PER_ELEMENT (constructor a)).

End TypedArrays.
Import TypedArrays.


(** ** Numbers, points and the [||] operator *)

Definition Point3 : Type := Q * Q * Q.

(** [x || d] on an optional number: [undefined] and [0] are falsy. *)
Definition orNumber (x : option Q) (d : Q) : Q :=
  match x with
  | Some q => if Qeq_bool q 0 then d else q
  | None => d
  end.

(** [x || d] on an optional integer tag. *)
Definition orInteger (x : option Z) (d : Z) : Z :=
  match x with
  | Some z => if decide (z = 0%Z) then d else z
  | None => d
  end.

(** [x || d] on an optional string: [undefined] and the empty string are
    falsy. *)
Definition orString (x : option string) (d : string) : string :=
  match x with
  | Some s => if decide (s = "") then d else s
  | None => d
  end.

(** [x || d] on an optional array: every array is truthy. *)
Definition orArray {A} (x : option A) (d : A) : A := default d x.

(** ** Decoded slices ([types.ts]) *)

Record DicomImage := mkDicomImage {
  rows : nat;
  columns : nat;
  columnPixelSpacing : option Q;
  rowPixelSpacing : option Q;
  sliceThickness : option Q;
  origin : option Point3;
  direction : option (list Q);
  frameOfReferenceUID : option string;
  rescaleSlope : option Q;
  rescaleIntercept : option Q;
  modality : option string;
  photometricInterpretation : option string;
  bitsAllocated : option Z;
  bitsStored : option Z;
  highBit : option Z;
  pixelRepresentation : option Z;
  windowCenter : option Q;
  windowWidth : option Q;
  getPixelData : TypedArray
}.

(** ** The volume handed to [volumeLoader.createLocalVolume] *)

Record Metadata := mkMetadata {
  FrameOfReferenceUID : string;
  Modality : string;
  Columns : nat;
  Rows : nat;
  SamplesPerPixel : nat;
  PixelSpacing : Q * Q;
  ImageOrientationPatient : list Q;
  BitsAllocated : Z;
  BitsStored : Z;
  HighBit : Z;
  PixelRepresentation : Z;
  PhotometricInterpretation : string;
  voiLut : list Z;
  VOILUTFunction : string
}.

Record LocalVolume := mkLocalVolume {
  volumeId : string;
  dimensions : nat * nat * nat;
  spacing : Point3;
  scalarData : TypedArray;
  volumeDirection : list Q;
  volumeOriginOf : Point3;
  metadata : Metadata
}.

(** The result of [csUtilities.sortImageIdsAndGetSpacing]. *)
Record SortResult := mkSortResult {
  sortedImageIds : list string;
  sortZSpacing : Q;
  sortOrigin : Point3
}.

(** The result of [sortImages]; an entry of [sortedImages] is [None] where
    the source array holds [undefined]. *)
Record SortedImages := mkSortedImages {
  sortedImages : list (option DicomImage);
  zSpacing : Q;
  volumeOrigin : Point3
}.

(** ** [sortImages] and [createVolumeViewport] *)

Module volumeRenderer.

Section Assembly.

(** The collaborators the code calls into: the image loader (a rejected
    promise is a [Throw]), the library sorter ([None] when it throws, which
    is all the [catch] of [sortImages] can see) and the rounding to
    binary32 that [new Float32Array(numbers)] applies to each number. *)
Variable loadAndCacheImage : string → Result DicomImage.
Variable sortImageIdsAndGetSpacing : list string → option SortResult.
Variable fround : Q → Q.

(** [new Map(imageIds.map((id, i) => [id, images[i]]))]: a later entry
    replaces an earlier one with the same key. *)
Definition imageMapOf (imageIds : list string) (images : list DicomImage)
    : gmap string (option DicomImage) :=
  foldl (λ m e, <[e.1 := e.2]> m) ∅ (imap (λ i id, (id, images !! i)) imageIds).

Definition sortImages (imageIds : list string) (images : list DicomImage)
    : Result SortedImages :=
  match sortImageIdsAndGetSpacing imageIds with
  | Some sortResult =>
      let imageMap := imageMapOf imageIds images in
      Ok {| sortedImages := (λ id, mjoin (imageMap !! id)) <$> sortedImageIds sortResult;
            zSpacing := sortZSpacing sortResult;
            volumeOrigin := sortOrigin sortResult |}
  | None =>
      match images !! 0 with
      | None => Throw TypeError
      | Some image0 =>
          Ok {| sortedImages := Some <$> images;
                zSpacing := orNumber (sliceThickness image0) 1;
                volumeOrigin := orArray (origin image0) (0, 0, 0)%Q |}
      end
  end.

(** [sortedImages.forEach((img, i) => scalarData.set(img.getPixelData(),
    i * sliceSize))], from index [i] on. *)
Fixpoint fillScalarData (sliceSize : nat) (i : nat)
    (imgs : list (option DicomImage)) (scalarData : TypedArray)
    : Result TypedArray :=
  match imgs with
  | [] => Ok scalarData
  | None :: _ => Throw TypeError
  | Some img :: rest =>
      scalarData' ← set scalarData (getPixelData img) (i * sliceSize);
      fillScalarData sliceSize (S i) rest scalarData'
  end.

(** The object literal given to [volumeLoader.createLocalVolume], with
    the volume id. [t1] is the reading of [Date.now()] taken here. *)
Definition localVolumeOf (volumeId : string) (image0 : DicomImage)
    (sorted : SortedImages) (scalarData : TypedArray) (t1 : N) : LocalVolume :=
  let rows := rows image0 in
  let columns := columns image0 in
  let spacing : Point3 :=
    (orNumber (columnPixelSpacing image0) 1,
     orNumber (rowPixelSpacing image0) 1,
     zSpacing sorted) in
  {| volumeId := volumeId;
     dimensions := (columns, rows, length (sortedImages sorted));
     spacing := spacing;
     scalarData := scalarData;
     volumeDirection :=
       fround <$> orArray (direction image0) [1; 0; 0; 0; 1; 0; 0; 0; 1]%Q;
     volumeOriginOf := volumeOrigin sorted;
     metadata :=
       {| FrameOfReferenceUID :=
            orString (frameOfReferenceUID image0) ("FOR-" +:+ pretty t1);
          Modality := orString (modality image0) "CT";
          Columns := columns;
          Rows := rows;
          SamplesPerPixel := 1;
          PixelSpacing := (orNumber (columnPixelSpacing image0) 1,
                           orNumber (rowPixelSpacing image0) 1);
          ImageOrientationPatient :=
            match direction image0 with
            | Some d => take 6 d
            | None => [1; 0; 0; 0; 1; 0]%Q
            end;
          BitsAllocated := orInteger (bitsAllocated image0) 16;
          BitsStored := orInteger (bitsStored image0) 12;
          HighBit := orInteger (highBit image0) 11;
          PixelRepresentation := orInteger (pixelRepresentation image0) 0;
          PhotometricInterpretation :=
            orString (photometricInterpretation image0) "MONOCHROME2";
          voiLut := [];
          VOILUTFunction := "LINEAR" |} |}.

(** The assembling part of [createVolumeViewport]: from the image ids to
    the volume given to [createLocalVolume]. [Promise.all] over the loads
    is [mapM]: all the slices, or the error of a load that fails; when
    several fail the source reports the one that fails first in time, and
    [mapM] the first in list order. [t0] and [t1] are the two
    readings of [Date.now()], for the volume id and for the synthesized
    frame of reference. The rendering engine, the tool group and the
    viewport calls around it do not touch the volume and are left out. *)
Definition createVolumeViewport (imageIds : list string) (t0 t1 : N)
    : Result LocalVolume :=
  let volumeId := "vol-" +:+ pretty t0 in
  images ← mapM loadAndCacheImage imageIds;
  sorted ← sortImages imageIds images;
  match sortedImages sorted !! 0 with
  | Some (Some image0) =>
      let rows := rows image0 in
      let columns := columns image0 in
      let samplePixelData := getPixelData image0 in
      let PixelDataConstructor := constructor samplePixelData in
      let sliceSize := rows * columns in
      scalarData ← fillScalarData sliceSize 0 (sortedImages sorted)
        (newTypedArray PixelDataConstructor (sliceSize * length (sortedImages sorted)));
      Ok (localVolumeOf volumeId image0 sorted scalarData t1)
  | _ => Throw TypeError
  end.

End Assembly.

End volumeRenderer.
Import volumeRenderer.

(** ** Conditions on the sorted slices *)

(** Each entry is a slice whose pixel data has at most [sliceSize] elements. *)
Definition fitsSlot (sliceSize : nat) (o : option DicomImage) : bool :=
  match o with
  | Some img => bool_decide (arrayLength (getPixelData img) ≤ sliceSize)
  | None => false
  end.

(** Each entry is a slice with the grid and the pixel kind of [image0] whose
    pixel data has [rows * columns] elements. *)
Definition sameGridAndKind (image0 : DicomImage) (o : option DicomImage) : bool :=
  match o with
  | Some img =>
      bool_decide (rows img = rows image0 ∧ columns img = columns image0
                   ∧ constructor (getPixelData img) = constructor (getPixelData image0)
                   ∧ arrayLength (getPixelData img) = rows img * columns img)
  | None => false
  end.

(** Each entry is a slice with the pixel kind of [image0]. *)
Definition sameKind (image0 : DicomImage) (o : option DicomImage) : bool :=
  match o with
  | Some img =>
      bool_decide (constructor (getPixelData img) = constructor (getPixelData image0))
  | None => false
  end.

(** ** The spatial sorter *)

Module SpatialSorter.

(** Modelled from the spec: the geometric tags of a SliceRecord
    ([positionPatient], [orientationPatient], either of which may be
    absent), looked up by image id as the library sorter does. *)
Record SliceGeometry := mkSliceGeometry {
  positionPatient : option Point3;
  orientationPatient : option (Point3 * Point3)
}.

(** Modelled from the spec: the cross product of 3D vectors, used for the
    scan-axis normal. *)
Definition cross (a b : Point3) : Point3 :=
  let '(a1, a2, a3) := a in
  let '(b1, b2, b3) := b in
  (a2 * b3 - a3 * b2, a3 * b1 - a1 * b3, a1 * b2 - a2 * b1)%Q.

(** Modelled from the spec: the dot product of 3D vectors, used for the
    depth. *)
Definition dot (a b : Point3) : Q :=
  let '(a1, a2, a3) := a in
  let '(b1, b2, b3) := b in
  (a1 * b1 + a2 * b2 + a3 * b3)%Q.

(** Modelled from the spec: a slice with its projection on the scan-axis
    normal, its "depth". *)
Record Projected := mkProjected {
  projId : string;
  projPosition : Point3;
  depth : Q
}.

(** Modelled from the spec: "sort slices ascending by depth (ties broken by
    input order)", as a stable insertion sort: an element is placed before
    the elements already sorted (which come later in the input) whenever its
    depth is not larger. *)
Fixpoint insertByDepth (x : Projected) (l : list Projected) : list Projected :=
  match l with
  | [] => [x]
  | y :: l' =>
      if Qle_bool (depth x) (depth y) then x :: y :: l'
      else y :: insertByDepth x l'
  end.

(** Modelled from the spec: the sort, inserting the slices from the last to
    the first. *)
Definition sortByDepth (l : list Projected) : list Projected :=
  foldr insertByDepth [] l.

Section Sorter.

Variable geometry : string → SliceGeometry.

(** Modelled from the spec: "project its [positionPatient] onto the
    scan-axis normal via dot product". *)
Definition project (normal : Point3) (id : string) : option Projected :=
  p ← positionPatient (geometry id);
  Some (mkProjected id p (dot p normal)).

(** Modelled from the spec: [csUtilities.sortImageIdsAndGetSpacing] is a
    function of the Cornerstone3D library and is not part of the
    repository's sources. This is the primary path of the spec's Spatial
    Sorter (section 4.1): the scan-axis normal is the cross product of the
    first slice's orientation vectors, each slice's depth is the dot
    product of its position with the normal, slices are sorted ascending by
    depth with a stable sort, the origin is the position of the
    depth-minimal slice and the spacing is (depth of last - depth of
    first) / (N - 1). The result is [None] (the library throws and
    [sortImages] falls back) when there is no slice, when N = 1 and when
    the first slice lacks position or orientation, as the spec says; where
    a later slice lacks a position, about which the spec is silent, the
    projection is undefined and the result is [None] too. *)
Definition spatialSorter (imageIds : list string) : option SortResult :=
  match imageIds with
  | [] | [_] => None
  | id0 :: _ =>
      o ← orientationPatient (geometry id0);
      let normal := cross o.1 o.2 in
      ps ← mapM (project normal) imageIds;
      let sorted := sortByDepth ps in
      first ← head sorted;
      final ← last sorted;
      Some {| sortedImageIds := projId <$> sorted;
              sortZSpacing :=
                ((depth final - depth first)
                 / inject_Z (Z.of_nat (length imageIds) - 1))%Q;
              sortOrigin := projPosition first |}
  end.

End Sorter.

(** The tags of a slice at position (x, y, z) with the identity orientation
    axes: row direction (1, 0, 0), column direction (0, 1, 0). *)
Definition axial (x y z : Q) : SliceGeometry :=
  mkSliceGeometry (Some (x, y, z)) (Some ((1, 0, 0), (0, 1, 0))%Q).

End SpatialSorter.
Import SpatialSorter.

(** ** Record update of the synthesized field *)


(** ** The fallback spacing as the specification words it *)

(** "[zSpacing] = first slice's [sliceThickness] or 1.0 if absent". *)
Definition statedFallbackSpacing (image0 : DicomImage) : Q :=
  default 1%Q (sliceThickness image0).

(** ** Sample data *)

Module Samples.

(** A slice with the given grid and pixel data and no optional tag. *)
Definition bareImage (r c : nat) (px : TypedArray) : DicomImage :=
  {| rows := r; columns := c;
     columnPixelSpacing := None; rowPixelSpacing := None;
     sliceThickness := None; origin := None; direction := None;
     frameOfReferenceUID := None; rescaleSlope := None;
     rescaleIntercept := None; modality := None;
     photometricInterpretation := None; bitsAllocated := None;
     bitsStored := None; highBit := None; pixelRepresentation := None;
     windowCenter := None; windowWidth := None;
     getPixelData := px |}.

Definition withThickness (t : Q) (img : DicomImage) : DicomImage :=
  {| rows := rows img; columns := columns img;
     columnPixelSpacing := columnPixelSpacing img;
     rowPixelSpacing := rowPixelSpacing img;
     sliceThickness := Some t; origin := origin img;
     direction := direction img;
     frameOfReferenceUID := frameOfReferenceUID img;
     rescaleSlope := rescaleSlope img;
     rescaleIntercept := rescaleIntercept img; modality := modality img;
     photometricInterpretation := photometricInterpretation img;
     bitsAllocated := bitsAllocated img; bitsStored := bitsStored img;
     highBit := highBit img; pixelRepresentation := pixelRepresentation img;
     windowCenter := windowCenter img; windowWidth := windowWidth img;
     getPixelData := getPixelData img |}.

(** A loader over a fixed table of decoded slices; an unknown id is a decode
    failure. *)
Definition loaderOf (table : list (string * DicomImage)) (id : string)
    : Result DicomImage :=
  match (list_to_map table : gmap string DicomImage) !! id with
  | Some img => Ok img
  | None => Throw (NamedError "DecodeFailure")
  end.

(** Geometry over a fixed table; an unknown id has no tag. *)
Definition geometryOf (table : list (string * SliceGeometry)) (id : string)
    : SliceGeometry :=
  default (mkSliceGeometry None None)
    ((list_to_map table : gmap string SliceGeometry) !! id).

Definition noGeometry : string → SliceGeometry := geometryOf [].

Definition identityRound : Q → Q := id.

Definition threeSlices : list (string * DicomImage) :=
  [("a", bareImage 1 2 (mkTypedArray Int16Array [31; 32]%Z));
   ("b", bareImage 1 2 (mkTypedArray Int16Array [11; 12]%Z));
   ("c", bareImage 1 2 (mkTypedArray Int16Array [21; 22]%Z))].

Definition threeGeometry : list (string * SliceGeometry) :=
  [("a", axial 0 0 30); ("b", axial 0 0 10); ("c", axial 0 0 20)].

Definition threeSorted : SortedImages :=
  {| sortedImages :=
       [Some (bareImage 1 2 (mkTypedArray Int16Array [11; 12]%Z));
        Some (bareImage 1 2 (mkTypedArray Int16Array [21; 22]%Z));
        Some (bareImage 1 2 (mkTypedArray Int16Array [31; 32]%Z))];
     zSpacing := 20 # 2;
     volumeOrigin := (0, 0, 10)%Q |}.

Definition threeSliceVolume : LocalVolume :=
  localVolumeOf identityRound "vol-5"
    (bareImage 1 2 (mkTypedArray Int16Array [11; 12]%Z)) threeSorted
    (mkTypedArray Int16Array [11; 12; 21; 22; 31; 32]%Z) 7.

(** A single slice without geometric tags, of thickness 2.5 and of
    thickness 0. *)
Definition thickSlice : DicomImage :=
  withThickness (5 # 2) (bareImage 1 1 (mkTypedArray Int16Array [7%Z])).

Definition zeroThicknessSlice : DicomImage :=
  withThickness 0 (bareImage 1 1 (mkTypedArray Int16Array [7%Z])).

(** Two 4 x 4 slices of 16-bit integers without geometric tags. *)
Definition twoSlices4x4 : list (string * DicomImage) :=
  [("p", bareImage 4 4 (mkTypedArray Int16Array (replicate 16 1%Z)));
   ("q", bareImage 4 4 (mkTypedArray Int16Array (replicate 16 2%Z)))].

Definition twoSlices4x4Volume : LocalVolume :=
  localVolumeOf identityRound "vol-5"
    (bareImage 4 4 (mkTypedArray Int16Array (replicate 16 1%Z)))
    {| sortedImages := Some <$> twoSlices4x4.*2;
       zSpacing := 1; volumeOrigin := (0, 0, 0)%Q |}
    (mkTypedArray Int16Array (replicate 16 1%Z ++ replicate 16 2%Z)) 7.

(** Two slices whose rows differ: 2 x 2 and 1 x 2. *)
Definition mismatchedSlices : list (string * DicomImage) :=
  [("u", bareImage 2 2 (mkTypedArray Int16Array [1; 2; 3; 4]%Z));
   ("v", bareImage 1 2 (mkTypedArray Int16Array [5; 6]%Z))].

(** A 16-bit integer slice followed by a binary32 slice holding
    3.1415927 (bits 0x40490FDB). *)
Definition floatPixels : TypedArray := mkTypedArray Float32Array [0x40490FDB%Z].

Definition mixedKindSlices : list (string * DicomImage) :=
  [("m", bareImage 1 1 (mkTypedArray Int16Array [7%Z]));
   ("n", bareImage 1 1 floatPixels)].

(** A 1 x 2 slice, a 2 x 2 slice and a 1 x 1 slice of one kind. *)
Definition unevenSlices : list (string * DicomImage) :=
  [("a", bareImage 1 2 (mkTypedArray Int16Array [1; 2]%Z));
   ("b", bareImage 2 2 (mkTypedArray Int16Array [5; 6; 7; 8]%Z));
   ("c", bareImage 1 1 (mkTypedArray Int16Array [9%Z]))].

End Samples.
Import Samples.

(** * The component, the cursors and the initialization *)

(** ** The upload handler and the mouse handlers ([VolumeViewer.tsx]) *)

Module VolumeViewer.

(** A selected file: its name and an opaque handle on its content. *)
Record File := mkFile {
  name : string;
  handle : N
}.

(** [\d], an ASCII digit. *)
Definition isDigit (c : ascii) : bool :=
  (48 <=? nat_of_ascii c) && (nat_of_ascii c <=? 57).

(** The digits at the start of a string, as far as they go. *)
Fixpoint digitRun (s : string) : string :=
  match s with
  | String c rest => if isDigit c then String c (digitRun rest) else ""
  | EmptyString => ""
  end.

(** [s.match(/\d+/)?.[0]]: the leftmost longest run of digits, [None]
    ([undefined]) when the string has no digit. *)
Fixpoint matchDigits (s : string) : option string :=
  match s with
  | String c rest => if isDigit c then Some (digitRun s) else matchDigits rest
  | EmptyString => None
  end.

(** The integer a string of digits denotes. *)
Fixpoint decimalValueFrom (acc : N) (s : string) : N :=
  match s with
  | String c rest =>
      decimalValueFrom (acc * 10 + (N.of_nat (nat_of_ascii c) - 48))%N rest
  | EmptyString => acc
  end.

(** [Infinity], as the first integer above every finite [number]. *)
Definition Infinity : N := (2 ^ 1024)%N.

(** The [number] nearest to an integer: itself below 2^53, otherwise
    rounded to 53 significant bits, ties to even, and [Infinity] from
    2^1024 on. *)
Definition toNumber (n : N) : N :=
  if (n <? 2 ^ 53)%N then n
  else
    let e := (N.log2 n - 52)%N in
    let q := N.shiftr n e in
    let r := (n mod 2 ^ e)%N in
    let half := (2 ^ (e - 1))%N in
    let q' := if (half <? r)%N || ((r =? half)%N && N.odd q) then (q + 1)%N else q in
    let v := N.shiftl q' e in
    if (v <? Infinity)%N then v else Infinity.

(** [parseInt] of a string of digits. (Past twenty significant digits an
    implementation may read the further digits as zeros; here they are
    read as they are.) *)
Definition parseInt (digits : string) : N := toNumber (decimalValueFrom 0 digits).

Record FileObject := mkFileObject {
  file : File;
  num : N
}.

(** [{ file, num: parseInt(file.name.match(/\d+/)?.[0] || '0') }] *)
Definition fileObjectOf (f : File) : FileObject :=
  {| file := f; num := parseInt (default "0" (matchDigits (name f))) |}.

(** [fileObjects.sort((a, b) => a.num - b.num)]: the sort is stable, and
    the comparator makes [a] come no later than [b] when
    [a.num <= b.num] (the difference of two infinities is NaN, which the
    sort takes for 0). The stable arrangement is computed by insertion,
    from the last element to the first. *)
Fixpoint insertByNum (x : FileObject) (l : list FileObject) : list FileObject :=
  match l with
  | [] => [x]
  | y :: l' =>
      if (num x <=? num y)%N then x :: y :: l' else y :: insertByNum x l'
  end.

Definition sortByNum (l : list FileObject) : list FileObject :=
  foldr insertByNum [] l.

(** A rendering engine with the volume it shows. *)
Record Engine := mkEngine {
  shownVolume : LocalVolume;
  destroyed : bool
}.

(** The state of the component that the handlers touch, with the object
    URLs revoked and the errors logged so far. *)
Record ViewerState := mkViewerState {
  status : string;
  renderingEngineRef : option Engine;
  revokedUrls : list string;
  consoleErrors : list JsError
}.

Definition setStatus (s : string) (st : ViewerState) : ViewerState :=
  {| status := s; renderingEngineRef := renderingEngineRef st;
     revokedUrls := revokedUrls st; consoleErrors := consoleErrors st |}.

(** [renderingEngineRef.current?.destroy()] *)
Definition destroyEngine (st : ViewerState) : ViewerState :=
  {| status := status st;
     renderingEngineRef :=
       (λ e, mkEngine (shownVolume e) true) <$> renderingEngineRef st;
     revokedUrls := revokedUrls st; consoleErrors := consoleErrors st |}.

Definition setEngine (e : Engine) (st : ViewerState) : ViewerState :=
  {| status := status st; renderingEngineRef := Some e;
     revokedUrls := revokedUrls st; consoleErrors := consoleErrors st |}.

Definition logError (e : JsError) (st : ViewerState) : ViewerState :=
  {| status := status st; renderingEngineRef := renderingEngineRef st;
     revokedUrls := revokedUrls st; consoleErrors := consoleErrors st ++ [e] |}.

Definition revokeAll (urls : list string) (st : ViewerState) : ViewerState :=
  {| status := status st; renderingEngineRef := renderingEngineRef st;
     revokedUrls := revokedUrls st ++ urls; consoleErrors := consoleErrors st |}.

Section Component.

(** The collaborators: [URL.createObjectURL], the three of the assembly,
    and the rendering calls that [createVolumeViewport] makes before the
    slices are loaded ([setUp]) and once the volume exists ([present]),
    either of which may throw. *)
Variable createObjectURL : File → string.
Variable loadAndCacheImage : string → Result DicomImage.
Variable sortImageIdsAndGetSpacing : list string → option SortResult.
Variable fround : Q → Q.
Variable setUp : Result unit.
Variable present : LocalVolume → Result unit.

(** The sorted file objects, their object URLs and the image ids. *)
Definition fileObjectsOf (files : list File) : list FileObject :=
  sortByNum (fileObjectOf <$> files).

Definition objectUrlsOf (files : list File) : list string :=
  (λ obj, createObjectURL (file obj)) <$> fileObjectsOf files.

Definition imageIdsOf (files : list File) : list string :=
  (λ url, "wadouri:" +:+ url) <$> objectUrlsOf files.

(** The whole of [createVolumeViewport], returning the new engine. *)
Definition createViewport (imageIds : list string) (t0 t1 : N) : Result Engine :=
  _ ← setUp;
  vol ← createVolumeViewport loadAndCacheImage sortImageIdsAndGetSpacing fround
          imageIds t0 t1;
  _ ← present vol;
  Ok (mkEngine vol false).

(** [handleFileUpload]. [files] is [event.target.files] and
    [elementPresent] tells whether [elementRef.current] is set. *)
Definition handleFileUpload (files : option (list File)) (elementPresent : bool)
    (t0 t1 : N) (st : ViewerState) : ViewerState :=
  match files with
  | None | Some [] => st
  | Some files =>
      let st := setStatus "Loading volume..." st in
      let objectUrls := objectUrlsOf files in
      let imageIds := imageIdsOf files in
      let st :=
        if elementPresent then
          let st := destroyEngine st in
          match createViewport imageIds t0 t1 with
          | Ok engine => setStatus "Ready" (setEngine engine st)
          | Throw e => setStatus "Error" (logError e st)
          end
        else st in
      revokeAll objectUrls st
  end.

End Component.

(** The keys of [CURSOR_STYLES]. *)
Inductive CursorStyle :=
  | cursorDefault
  | cursorRotate
  | cursorPan
  | cursorPanActive
  | cursorZoom
  | cursorZoomActive.

Record MouseEvent := mkMouseEvent {
  shiftKey : bool;
  ctrlKey : bool;
  button : Z
}.

(** [handleMouseDown]: the cursor after the event, given the one before. *)
Definition handleMouseDown (e : MouseEvent) (cursorStyle : CursorStyle) : CursorStyle :=
  if shiftKey e then cursorPanActive
  else if ctrlKey e then cursorZoomActive
  else if decide (button e = 0%Z) then cursorRotate
  else if decide (button e = 1%Z) then cursorPanActive
  else if decide (button e = 2%Z) then cursorZoomActive
  else cursorStyle.

Definition handleMouseUp (cursorStyle : CursorStyle) : CursorStyle := cursorDefault.


End VolumeViewer.

(** ** The tool bindings ([volumeRenderer.ts]) *)

Module toolBindings.

Inductive Tool := TrackballRotateTool | ZoomTool | PanTool.

(** The members of [ToolEnums.MouseBindings] and
    [ToolEnums.KeyboardBindings] that the bindings use. *)
Inductive MouseBindings := Primary | Secondary | Auxiliary.
Inductive KeyboardBindings := Shift | Ctrl.

#[global] Instance KeyboardBindings_eq_dec : EqDecision KeyboardBindings.
Proof. solve_decision. Defined.

Record Binding := mkBinding {
  mouseButton : MouseBindings;
  modifierKey : option KeyboardBindings
}.

Record ToolBindings := mkToolBindings {
  rotate : list Binding;
  pan : list Binding;
  zoom : list Binding
}.

Definition TOOL_BINDINGS : ToolBindings :=
  {| rotate := [mkBinding Primary None];
     pan := [mkBinding Auxiliary None; mkBinding Primary (Some Shift)];
     zoom := [mkBinding Secondary None; mkBinding Primary (Some Ctrl)] |}.

(** What [setupToolGroup] activates: each tool with its bindings. *)
Definition activeBindings : list (Tool * Binding) :=
  ((λ b, (TrackballRotateTool, b)) <$> rotate TOOL_BINDINGS)
  ++ ((λ b, (PanTool, b)) <$> pan TOOL_BINDINGS)
  ++ ((λ b, (ZoomTool, b)) <$> zoom TOOL_BINDINGS).

(** The [MouseEvent.button] of a mouse button: 0 is the primary button, 1
    the auxiliary one and 2 the secondary one. *)
Definition buttonOf (b : MouseBindings) : Z :=
  match b with
  | Primary => 0
  | Auxiliary => 1
  | Secondary => 2
  end.

(** A mouse-down with the button of the binding and exactly its modifier. *)
Definition eventOf (b : Binding) : VolumeViewer.MouseEvent :=
  {| VolumeViewer.shiftKey := bool_decide (modifierKey b = Some Shift);
     VolumeViewer.ctrlKey := bool_decide (modifierKey b = Some Ctrl);
     VolumeViewer.button := buttonOf (mouseButton b) |}.

(** The cursor the component shows while a tool is at work. *)
Definition cursorOf (t : Tool) : VolumeViewer.CursorStyle :=
  match t with
  | TrackballRotateTool => VolumeViewer.cursorRotate
  | PanTool => VolumeViewer.cursorPanActive
  | ZoomTool => VolumeViewer.cursorZoomActive
  end.

End toolBindings.

(** ** The SVG cursors ([cursors.ts]) *)

Module cursors.

(** A string stands for the UTF-8 bytes of the text. *)

Definition isAlpha (c : ascii) : bool :=
  let n := nat_of_ascii c in
  ((65 <=? n) && (n <=? 90)) || ((97 <=? n) && (n <=? 122)).

(** The characters [encodeURIComponent] leaves as they are: letters,
    digits and [- _ . ! ~ * ' ( )]. *)
Definition isUnreserved (c : ascii) : bool :=
  isAlpha c || VolumeViewer.isDigit c
  || bool_decide (nat_of_ascii c ∈ [45; 95; 46; 33; 126; 42; 39; 40; 41]).

Definition hexDigit (n : nat) : ascii :=
  default "0"%char (String.get n "0123456789ABCDEF").

(** [%XX] for one byte. *)
Definition percentEncode (c : ascii) : string :=
  String "%" (String (hexDigit (nat_of_ascii c / 16))
                (String (hexDigit (nat_of_ascii c mod 16)) EmptyString)).

Fixpoint encodeURIComponent (s : string) : string :=
  match s with
  | String c rest =>
      (if isUnreserved c then String c EmptyString else percentEncode c)
      +:+ encodeURIComponent rest
  | EmptyString => EmptyString
  end.

(** The double quote. *)
Definition quote : ascii := "034"%char.

(** [createSvgCursor]; an omitted hotspot coordinate is 12. The
    coordinates are integers. *)
Definition createSvgCursor (svg : string) (hotspotX hotspotY : option Z) : string :=
  "url(" +:+ String quote ("data:image/svg+xml," +:+ encodeURIComponent svg)
  +:+ String quote (") " +:+ pretty (default 12%Z hotspotX)
  +:+ " " +:+ pretty (default 12%Z hotspotY) +:+ ", auto").

(** The value of a hexadecimal digit. *)
Definition hexValue (c : ascii) : nat :=
  let n := nat_of_ascii c in
  if (48 <=? n) && (n <=? 57) then n - 48
  else if (65 <=? n) && (n <=? 70) then n - 55
  else 0.

(** Percent-decoding, as a reader of the data URL does it. *)
Fixpoint percentDecode (s : string) : string :=
  match s with
  | String c rest =>
      match rest with
      | String h (String l rest') =>
          if Ascii.eqb c "%"
          then String (ascii_of_nat (16 * hexValue h + hexValue l)) (percentDecode rest')
          else String c (percentDecode rest)
      | _ => String c (percentDecode rest)
      end
  | EmptyString => EmptyString
  end.

End cursors.

(** ** The one-time initialization ([initCornerstone.ts]) *)

Module initCornerstone.

(** The calls and writes that the initialization performs on its
    collaborators. *)
Inductive InitCall :=
  | CoreInit
  | ToolsInit
  | WireExternal
  | LoaderInit (maxWebWorkers : N) (strict : bool)
  | RegisterImageLoader (scheme : string)
  | RegisterUnknownVolumeLoader
  | AddTool (t : toolBindings.Tool).

#[global] Instance Tool_eq_dec : EqDecision toolBindings.Tool.
Proof. solve_decision. Defined.

#[global] Instance InitCall_eq_dec : EqDecision InitCall.
Proof. solve_decision. Defined.

(** Which optional members a [DICOMLoaderUtils] has. *)
Record LoaderUtils := mkLoaderUtils {
  external : bool;
  init : bool;
  wadouri : bool
}.

(** What the initialization finds around it: the loader module and its
    optional [default] export, [navigator.hardwareConcurrency], and which
    of the calls throw (or reject). *)
Record Environment := mkEnvironment {
  loaderModule : LoaderUtils;
  loaderDefault : option LoaderUtils;
  hardwareConcurrency : option N;
  throws : InitCall → option JsError
}.

(** The module variable [isInitialized] and the calls completed so far. *)
Record InitState := mkInitState {
  isInitialized : bool;
  performed : list InitCall
}.

Definition freshState : InitState := mkInitState false [].

(** [x || d] on an optional count. *)
Definition orCount (x : option N) (d : N) : N :=
  match x with
  | Some n => if decide (n = 0%N) then d else n
  | None => d
  end.

(** The calls of one initialization, in order. *)
Definition plannedCalls (env : Environment) : list InitCall :=
  let loaderUtils := orArray (loaderDefault env) (loaderModule env) in
  [CoreInit; ToolsInit]
  ++ (if external loaderUtils then [WireExternal] else [])
  ++ (if init loaderUtils
      then [LoaderInit (orCount (hardwareConcurrency env) 4) false] else [])
  ++ (if wadouri loaderUtils then [RegisterImageLoader "wadouri"] else [])
  ++ [RegisterUnknownVolumeLoader;
      AddTool toolBindings.TrackballRotateTool;
      AddTool toolBindings.ZoomTool;
      AddTool toolBindings.PanTool].

(** The calls are made in order until one throws. *)
Fixpoint runCalls (throws : InitCall → option JsError) (calls : list InitCall)
    : Result unit * list InitCall :=
  match calls with
  | [] => (Ok (), [])
  | c :: rest =>
      match throws c with
      | Some e => (Throw e, [])
      | None => let '(r, done) := runCalls throws rest in (r, c :: done)
      end
  end.

(** [initCornerstone]: nothing when the flag is set; otherwise the flag is
    set first and the calls follow. *)
Definition initCornerstone (env : Environment) (st : InitState)
    : Result unit * InitState :=
  if isInitialized st then (Ok (), st)
  else
    let '(r, done) := runCalls (throws env) (plannedCalls env) in
    (r, {| isInitialized := true; performed := performed st ++ done |}).

(** One call after another, each in the environment of its time. *)
Definition initRepeatedly (envs : list Environment) (st : InitState) : InitState :=
  foldl (λ st env, (initCornerstone env st).2) st envs.

End initCornerstone.

(** ** The earlier viewer ([components/VolumeViewer.tsx]) *)

Module legacyViewer.

Record LegacyMetadata := mkLegacyMetadata {
  legacyFrameOfReferenceUID : string;
  RescaleSlope : Q;
  RescaleIntercept : Q;
  legacyModality : string
}.

Record LegacyVolume := mkLegacyVolume {
  legacyVolumeId : string;
  legacyDimensions : nat * nat * nat;
  legacySpacing : Point3;
  legacyScalarData : TypedArray;
  legacyDirection : list Q;
  legacyOrigin : Point3;
  legacyMetadata : LegacyMetadata
}.

Section Legacy.

(** The collaborators: the image loader, the metadata provider's
    [imagePlaneModule] position of an id, and [Math.sqrt] and the rounding
    to binary32 on numbers. *)
Variable loadAndCacheImage : string → Result DicomImage.
Variable imagePositionPatient : string → option Point3.
Variable sqrt : Q → Q.
Variable fround : Q → Q.

(** "Derive Z spacing from patient position when possible": the distance
    between the positions of the first two ids. *)
Definition legacyZSpacing (imageIds : list string) (image0 : DicomImage) : Q :=
  let zSpacing := orNumber (sliceThickness image0) 1 in
  if decide (1 < length imageIds) then
    match imageIds !! 0 ≫= imagePositionPatient,
          imageIds !! 1 ≫= imagePositionPatient with
    | Some (p1x, p1y, p1z), Some (p2x, p2y, p2z) =>
        sqrt ((p2x - p1x) * (p2x - p1x) + (p2y - p1y) * (p2y - p1y)
              + (p2z - p1z) * (p2z - p1z))%Q
    | _, _ => zSpacing
    end
  else zSpacing.

(** The assembling part of [renderVolume]: the slices in the order of the
    ids, in a [Float32Array]. *)
Definition renderVolume (imageIds : list string) (t0 t1 : N) : Result LegacyVolume :=
  let volumeId := "vol-" +:+ pretty t0 in
  images ← mapM loadAndCacheImage imageIds;
  match images !! 0 with
  | Some image0 =>
      let zSpacing := legacyZSpacing imageIds image0 in
      let spacing : Point3 :=
        (orNumber (columnPixelSpacing image0) 1,
         orNumber (rowPixelSpacing image0) 1,
         zSpacing) in
      let rows := rows image0 in
      let columns := columns image0 in
      let sliceSize := rows * columns in
      scalarData ← fillScalarData sliceSize 0 (Some <$> images)
        (newTypedArray Float32Array (rows * columns * length images));
      Ok {| legacyVolumeId := volumeId;
            legacyDimensions := (columns, rows, length images);
            legacySpacing := spacing;
            legacyScalarData := scalarData;
            legacyDirection :=
              fround <$> orArray (direction image0) [1; 0; 0; 0; 1; 0; 0; 0; 1]%Q;
            legacyOrigin := orArray (origin image0) (0, 0, 0)%Q;
            legacyMetadata :=
              {| legacyFrameOfReferenceUID :=
                   orString (frameOfReferenceUID image0) ("FOR-" +:+ pretty t1);
                 RescaleSlope := default 1%Q (rescaleSlope image0);
                 RescaleIntercept := default (-1024)%Q (rescaleIntercept image0);
                 legacyModality := "CT" |} |}
  | None => Throw TypeError
  end.

End Legacy.

(** No position is known. *)
Definition noPosition (id : string) : option Point3 := None.

Definition identitySqrt : Q → Q := id.

End legacyViewer.

(** ** Reading a quoted string *)

Module quoted.

(** Every character of the string satisfies [p]. *)
Fixpoint stringAll (p : ascii → bool) (s : string) : bool :=
  match s with
  | String c rest => p c && stringAll p rest
  | EmptyString => true
  end.

(** The text up to the first double quote, where a reader that has seen the
    opening quote ends the string. *)
Fixpoint untilQuote (s : string) : string :=
  match s with
  | String c rest =>
      if Ascii.eqb c cursors.quote then EmptyString else String c (untilQuote rest)
  | EmptyString => EmptyString
  end.

(** What [encodeURIComponent] can put out: an unreserved character or [%]. *)
Definition isEncoded (c : ascii) : bool :=
  cursors.isUnreserved c || Ascii.eqb c "%".

End quoted.

(** ** Uploads *)

Module Uploads.
Import VolumeViewer.

(** One upload: the files, whether the element is there, the clock
    readings and how the rendering calls fare this time. *)
Record Upload := mkUpload {
  upFiles : option (list File);
  upElementPresent : bool;
  upT0 : N;
  upT1 : N;
  upSetUp : Result unit;
  upPresent : LocalVolume → Result unit
}.

(** [useState('Idle')] and [useRef(null)]. *)
Definition initialState : ViewerState :=
  {| status := "Idle"; renderingEngineRef := None; revokedUrls := [];
     consoleErrors := [] |}.

(** The ref holds an engine on which [destroy()] has not been called. *)
Definition hasLiveEngine (st : ViewerState) : Prop :=
  ∃ e, renderingEngineRef st = Some e ∧ destroyed e = false.

(** Files named after the three sample slices, and an object URL for each
    that makes its image id the sample's id. *)
Definition sampleFiles : list File :=
  [mkFile "IM30-a" 0; mkFile "IM10-b" 1; mkFile "IM20-c" 2].

Definition sampleUrl (f : File) : string := "blob:" +:+ name f.

Definition uploadedSlices : list (string * DicomImage) :=
  [("wadouri:blob:IM30-a", bareImage 1 2 (mkTypedArray Int16Array [31; 32]%Z));
   ("wadouri:blob:IM10-b", bareImage 1 2 (mkTypedArray Int16Array [11; 12]%Z));
   ("wadouri:blob:IM20-c", bareImage 1 2 (mkTypedArray Int16Array [21; 22]%Z))].

Definition alwaysPresents (vol : LocalVolume) : Result unit := Ok ().

End Uploads.

(** ** Uploads that overlap *)

(** [handleFileUpload] is an [async] function: it runs up to its [await]
    in one piece, and what follows the [await] runs later, once the promise
    of [createVolumeViewport] is settled. A second upload can begin in
    between. [beginUpload] is the part before the [await], [finishUpload]
    the part after it, and a schedule makes any number of uploads begin and
    finish in any order. *)
Module AsyncUploads.
Import VolumeViewer Uploads.

(** An upload that is waiting: the object URLs its [finally] will revoke and
    what its promise will settle to. *)
Record Pending := mkPending {
  pendingUrls : list string;
  pendingResult : Result Engine
}.

Inductive Step :=
  | Start (u : Upload)
  | Finish (i : nat).

(** The component and the uploads that wait, oldest first. *)
Record Flight := mkFlight {
  viewer : ViewerState;
  inFlight : list Pending
}.

Definition idle : Flight := mkFlight initialState [].

Section Async.

Variable createObjectURL : File → string.
Variable loadAndCacheImage : string → Result DicomImage.
Variable sortImageIdsAndGetSpacing : list string → option SortResult.
Variable fround : Q → Q.

(** From the top of the handler to its [await]: the guard, the status, the
    object URLs, the element check and [destroy()] on the engine of the ref.
    Without an element the handler returns here, through its [finally]. *)
Definition beginUpload (u : Upload) (st : ViewerState)
    : ViewerState * option Pending :=
  match upFiles u with
  | None | Some [] => (st, None)
  | Some files =>
      let st := setStatus "Loading volume..." st in
      let objectUrls := objectUrlsOf createObjectURL files in
      let imageIds := imageIdsOf createObjectURL files in
      if upElementPresent u then
        (destroyEngine st,
         Some {| pendingUrls := objectUrls;
                 pendingResult :=
                   createViewport loadAndCacheImage sortImageIdsAndGetSpacing
                     fround (upSetUp u) (upPresent u) imageIds (upT0 u) (upT1 u) |})
      else (revokeAll objectUrls st, None)
  end.

(** From the [await] on: the assignment to the ref and [setStatus('Ready')],
    or the [catch], and then the [finally]. *)
Definition finishUpload (p : Pending) (st : ViewerState) : ViewerState :=
  revokeAll (pendingUrls p)
    (match pendingResult p with
     | Ok engine => setStatus "Ready" (setEngine engine st)
     | Throw e => setStatus "Error" (logError e st)
     end).

(** [Finish i] lets the [i]-th waiting upload go on; there is nothing to do
    when fewer are waiting. *)
Definition step (s : Step) (fl : Flight) : Flight :=
  match s with
  | Start u =>
      let '(st, p) := beginUpload u (viewer fl) in
      mkFlight st (inFlight fl ++ option_list p)
  | Finish i =>
      match inFlight fl !! i with
      | Some p => mkFlight (finishUpload p (viewer fl)) (delete i (inFlight fl))
      | None => fl
      end
  end.

Definition runSteps (steps : list Step) (fl : Flight) : Flight :=
  foldl (λ fl s, step s fl) fl steps.

(** No upload begins while another one waits. *)
Fixpoint neverOverlaps (steps : list Step) (fl : Flight) : bool :=
  match steps with
  | [] => true
  | s :: rest =>
      match s, inFlight fl with
      | Start _, _ :: _ => false
      | _, _ => neverOverlaps rest (step s fl)
      end
  end.

End Async.

(** Two uploads of the sample files, the first of which shows its volume
    and the second of which fails in its rendering calls. *)
Definition showing : Upload :=
  {| upFiles := Some sampleFiles; upElementPresent := true; upT0 := 0; upT1 := 0;
     upSetUp := Ok (); upPresent := alwaysPresents |}.

Definition failing : Upload :=
  {| upFiles := Some sampleFiles; upElementPresent := true; upT0 := 1; upT1 := 1;
     upSetUp := Throw (NamedError "enableElement"); upPresent := alwaysPresents |}.

End AsyncUploads.

(** ** Sample environments of the initialization *)

Module InitSamples.
Import initCornerstone.

(** An environment in which [coreInit] rejects, and one in which nothing
    throws. *)
Definition failingCore : Environment :=
  {| loaderModule := mkLoaderUtils true true true; loaderDefault := None;
     hardwareConcurrency := Some 8%N;
     throws := λ c, if decide (c = CoreInit) then Some (NamedError "init") else None |}.

Definition healthy : Environment :=
  {| loaderModule := mkLoaderUtils true true true; loaderDefault := None;
     hardwareConcurrency := None;
     throws := λ _, None |}.

End InitSamples.

(** ** Integer kinds *)

Definition isIntegerKind (k : PixelKind) : Prop := k ≠ Float32Array.

(** Whether an element of integer kind [k], stored into a binary32 array
    and read back, gives its bits and its value again. *)
Definition roundTripsThroughFloat32 (k : PixelKind) (raw : Z) : bool :=
  ((convertElement Float32Array k (convertElement k Float32Array raw) =? raw)
   && (f32Trunc (convertElement k Float32Array raw) =? truncatedValue k raw))%Z.

(** [f] holds on the [n] integers from [z] on. *)
Fixpoint allFrom (f : Z → bool) (z : Z) (n : nat) : bool :=
  match n with
  | O => true
  | S n' => f z && allFrom f (z + 1)%Z n'
  end.

(** ** A library sorter that reorders the id array *)

(** [csUtilities.sortImageIdsAndGetSpacing(imageIds)] is handed the array
    itself, and [sortImages] reads that array again after the call, to build
    its map. Here the sorter also says how it leaves the array; [sortImages]
    is the case of a sorter that leaves it as it was. *)
Definition sortImagesInPlace
    (sortImageIdsAndGetSpacing : list string → option (SortResult * list string))
    (imageIds : list string) (images : list DicomImage) : Result SortedImages :=
  match sortImageIdsAndGetSpacing imageIds with
  | Some (sortResult, imageIds') =>
      let imageMap := imageMapOf imageIds' images in
      Ok {| sortedImages := (λ id, mjoin (imageMap !! id)) <$> sortedImageIds sortResult;
            zSpacing := sortZSpacing sortResult;
            volumeOrigin := sortOrigin sortResult |}
  | None =>
      match images !! 0 with
      | None => Throw TypeError
      | Some image0 =>
          Ok {| sortedImages := Some <$> images;
                zSpacing := orNumber (sliceThickness image0) 1;
                volumeOrigin := orArray (origin image0) (0, 0, 0)%Q |}
      end
  end.

(** ** The fallback origin as the specification words it *)

(** "[origin] = first slice's [positionPatient] or [(0,0,0)] if absent". *)
Definition statedFallbackOrigin (geometry : string → SliceGeometry) (id0 : string)
    : Point3 :=
  default (0, 0, 0)%Q (positionPatient (geometry id0)).

(** ** Further sample data *)

Module FurtherSamples.

(** Geometric tags with a position and no orientation. *)
Definition positionOnly : string → SliceGeometry :=
  geometryOf [("s", mkSliceGeometry (Some (1, 2, 3)%Q) None)].

(** The slice of thickness 2.5 with an [origin] of its own. *)
Definition originSlice : DicomImage :=
  {| rows := rows thickSlice; columns := columns thickSlice;
     columnPixelSpacing := None; rowPixelSpacing := None;
     sliceThickness := sliceThickness thickSlice; origin := Some (1, 2, 3)%Q;
     direction := None; frameOfReferenceUID := None; rescaleSlope := None;
     rescaleIntercept := None; modality := None;
     photometricInterpretation := None; bitsAllocated := None;
     bitsStored := None; highBit := None; pixelRepresentation := None;
     windowCenter := None; windowWidth := None;
     getPixelData := getPixelData thickSlice |}.

Definition unevenVolume : LocalVolume :=
  localVolumeOf identityRound "vol-0"
    (bareImage 1 2 (mkTypedArray Int16Array [1; 2]%Z))
    {| sortedImages := Some <$> unevenSlices.*2; zSpacing := 1;
       volumeOrigin := (0, 0, 0)%Q |}
    (mkTypedArray Int16Array [1; 2; 5; 6; 9; 8]%Z) 0.

(** The decoded slice of an id, [None] where the load fails. *)
Definition loadedImage (loadAndCacheImage : string → Result DicomImage)
    (id : string) : option DicomImage :=
  match loadAndCacheImage id with
  | Ok img => Some img
  | Throw _ => None
  end.

(** A sorter that returns the ids reversed, preceded by an id of its own. *)
Definition strangerSorter (imageIds : list string) : option SortResult :=
  Some {| sortedImageIds := "x" :: reverse imageIds; sortZSpacing := 1;
          sortOrigin := (0, 0, 0)%Q |}.

(** A sorter that reverses the id array in place and returns it. *)
Definition reverseInPlace (imageIds : list string)
    : option (SortResult * list string) :=
  Some ({| sortedImageIds := reverse imageIds; sortZSpacing := 1;
           sortOrigin := (0, 0, 0)%Q |}, reverse imageIds).

(** A binary32 slice followed by a 16-bit integer slice. *)
Definition floatFirstSlices : list (string * DicomImage) :=
  [("f", bareImage 1 2 (mkTypedArray Float32Array [0x40490FDB; 0]%Z));
   ("i", bareImage 1 2 (mkTypedArray Int16Array [65535; 1000]%Z))].

Definition floatFirstVolume : LocalVolume :=
  localVolumeOf identityRound "vol-0"
    (bareImage 1 2 (mkTypedArray Float32Array [0x40490FDB; 0]%Z))
    {| sortedImages := Some <$> floatFirstSlices.*2; zSpacing := 1;
       volumeOrigin := (0, 0, 0)%Q |}
    (mkTypedArray Float32Array [0x40490FDB; 0; 0xBF800000; 0x447A0000]%Z) 0.

(** A signed 16-bit slice followed by an unsigned 16-bit slice. *)
Definition signedFirstSlices : list (string * DicomImage) :=
  [("s", bareImage 1 2 (mkTypedArray Int16Array [1; 2]%Z));
   ("u", bareImage 1 2 (mkTypedArray Uint16Array [40000; 7]%Z))].

Definition signedFirstVolume : LocalVolume :=
  localVolumeOf identityRound "vol-0"
    (bareImage 1 2 (mkTypedArray Int16Array [1; 2]%Z))
    {| sortedImages := Some <$> signedFirstSlices.*2; zSpacing := 1;
       volumeOrigin := (0, 0, 0)%Q |}
    (mkTypedArray Int16Array [1; 2; 40000; 7]%Z) 0.

End FurtherSamples.
Import FurtherSamples.

(** * Properties *)

(** ** The runtime pieces *)

Lemma mapM_Result_length {A B} (f : A → Result B) (l : list A) (k : list B) :
  mapM f l = Ok k → length k = length l.
Proof.
  revert k. induction l as [|x l IH]; intros k; simpl.
  - intros [= <-]. reflexivity.
  - destruct (f x) as [y|e]; simpl; [|discriminate].
    destruct (mapM f l) as [k'|e]; simpl; [|discriminate].
    intros [= <-]. simpl. f_equal. by apply IH.
Qed.

Lemma bind_Ok_inv {A B} (r : Result A) (k : A → Result B) (b : B) :
  r ≫= k = Ok b → ∃ a, r = Ok a ∧ k a = Ok b.
Proof. destruct r as [a|e]; simpl; [eauto|discriminate]. Qed.


Lemma set_Ok_inv target source offset target' :
  set target source offset = Ok target' →
  (arrayLength source + offset ≤ arrayLength target)
  ∧ constructor target' = constructor target
  ∧ elements target' =
      list_inserts offset
        (convertElement (constructor source) (constructor target) <$> elements source)
        (elements target).
Proof.
  unfold set. case_decide; [discriminate|]. intros [= <-]. simpl.
  split; [lia|done].
Qed.

Lemma set_fits target source offset :
  arrayLength source + offset ≤ arrayLength target →
  ∃ target', set target source offset = Ok target'.
Proof. intros H. unfold set. case_decide; [lia|]. eauto. Qed.

Lemma set_arrayLength target source offset target' :
  set target source offset = Ok target' → arrayLength target' = arrayLength target.
Proof.
  intros (_ & _ & He)%set_Ok_inv. unfold arrayLength. rewrite He.
  apply length_inserts.
Qed.

Lemma convertElement_same k raw : convertElement k k raw = raw.
Proof. unfold convertElement. by case_decide. Qed.

(** ** The fill loop *)

Lemma fillScalarData_shape sliceSize imgs : ∀ i buf buf',
  fillScalarData sliceSize i imgs buf = Ok buf' →
  constructor buf' = constructor buf ∧ arrayLength buf' = arrayLength buf.
Proof.
  induction imgs as [|[img|] rest IH]; intros i buf buf'; simpl.
  - intros [= <-]. done.
  - destruct (set buf (getPixelData img) (i * sliceSize)) as [buf1|e] eqn:Hset;
      simpl; [|discriminate].
    intros [Hc Hl]%IH. pose proof (set_arrayLength _ _ _ _ Hset).
    apply set_Ok_inv in Hset as (_ & Hc1 & _). split; congruence.
  - discriminate.
Qed.


Lemma fitsSlot_lookup sliceSize imgs k img :
  forallb (fitsSlot sliceSize) imgs = true →
  imgs !! k = Some (Some img) →
  arrayLength (getPixelData img) ≤ sliceSize.
Proof.
  rewrite forallb_forall. intros Hfit Hk. specialize (Hfit (Some img)).
  simpl in Hfit. eapply bool_decide_eq_true_1, Hfit, list_elem_of_In.
  by eapply list_elem_of_lookup_2.
Qed.

(** When every slice fits its slot the loop succeeds; slot [i + k] then
    starts with the converted samples of slice [k] and is otherwise as it was
    before, and so is everything in front of slot [i]. *)
Lemma fillScalarData_fits sliceSize imgs : ∀ i buf,
  forallb (fitsSlot sliceSize) imgs = true →
  (i + length imgs) * sliceSize ≤ arrayLength buf →
  ∃ buf', fillScalarData sliceSize i imgs buf = Ok buf'
    ∧ (∀ j, j < i * sliceSize → elements buf' !! j = elements buf !! j)
    ∧ (∀ k img p, imgs !! k = Some (Some img) → p < sliceSize →
         elements buf' !! ((i + k) * sliceSize + p) =
           if decide (p < arrayLength (getPixelData img))
           then convertElement (constructor (getPixelData img)) (constructor buf)
                  <$> elements (getPixelData img) !! p
           else elements buf !! ((i + k) * sliceSize + p)).
Proof.
  induction imgs as [|[img|] rest IH]; intros i buf Hfit Hlen; simpl in *.
  - eexists; split; [done|]. split; [done|]. intros k img p Hk. by destruct k.
  - apply andb_prop in Hfit as [Himg Hrest]. apply bool_decide_eq_true in Himg.
    destruct (set_fits buf (getPixelData img) (i * sliceSize)) as [buf1 Hset]; [nia|].
    rewrite Hset. simpl.
    pose proof (set_arrayLength _ _ _ _ Hset) as Hl1.
    apply set_Ok_inv in Hset as (Hroom & Hc1 & He1).
    destruct (IH (S i) buf1 Hrest) as (buf' & Hfill & Hfront & Hslots); [rewrite Hl1; lia|].
    exists buf'. split; [done|]. split.
    + intros j Hj. rewrite Hfront by lia. rewrite He1.
      by apply list_lookup_inserts_lt.
    + intros k img' p Hk Hp. destruct k as [|k]; simpl in Hk.
      * injection Hk as ->. rewrite Nat.add_0_r. rewrite Hfront by lia.
        rewrite He1. case_decide as Hpl.
        -- rewrite list_lookup_inserts.
           ++ rewrite list_lookup_fmap. do 2 f_equal. lia.
           ++ rewrite length_fmap. unfold arrayLength in Hpl. lia.
           ++ unfold arrayLength in *. nia.
        -- apply list_lookup_inserts_ge. rewrite length_fmap.
           unfold arrayLength in Hpl. lia.
      * replace ((i + S k) * sliceSize + p) with ((S i + k) * sliceSize + p) by lia.
        rewrite (Hslots k img' p Hk Hp). rewrite Hc1. case_decide; [done|].
        rewrite He1. apply list_lookup_inserts_ge. rewrite length_fmap.
        unfold arrayLength in *. nia.
  - discriminate.
Qed.

(** ** [sortImages] and [createVolumeViewport] *)

Lemma sameGridAndKind_fits image0 imgs :
  forallb (sameGridAndKind image0) imgs = true →
  forallb (fitsSlot (rows image0 * columns image0)) imgs = true.
Proof.
  rewrite !forallb_forall. intros H o Ho. specialize (H o Ho).
  destruct o as [img|]; [|done]. simpl in *.
  apply bool_decide_eq_true in H as (-> & -> & _ & ->).
  by apply bool_decide_eq_true.
Qed.

Section AssemblyProperties.

Variable loadAndCacheImage : string → Result DicomImage.
Variable sortImageIdsAndGetSpacing : list string → option SortResult.
Variable fround : Q → Q.

Abbreviation sortImages := (sortImages sortImageIdsAndGetSpacing).
Abbreviation createVolumeViewport :=
  (createVolumeViewport loadAndCacheImage sortImageIdsAndGetSpacing fround).
Abbreviation localVolumeOf := (localVolumeOf fround).

Lemma sortImages_length imageIds images sorted :
  (∀ r, sortImageIdsAndGetSpacing imageIds = Some r →
        length (sortedImageIds r) = length imageIds) →
  length images = length imageIds →
  sortImages imageIds images = Ok sorted →
  length (sortedImages sorted) = length imageIds.
Proof.
  intros Hsort Himgs. unfold volumeRenderer.sortImages.
  destruct (sortImageIdsAndGetSpacing imageIds) as [r|].
  - intros [= <-]. simpl. rewrite length_fmap. by apply Hsort.
  - destruct (images !! 0); [|discriminate]. intros [= <-]. simpl.
    by rewrite length_fmap.
Qed.

Lemma createVolumeViewport_Ok_inv imageIds t0 t1 vol :
  createVolumeViewport imageIds t0 t1 = Ok vol →
  ∃ images sorted image0 buf,
    mapM loadAndCacheImage imageIds = Ok images
    ∧ sortImages imageIds images = Ok sorted
    ∧ sortedImages sorted !! 0 = Some (Some image0)
    ∧ fillScalarData (rows image0 * columns image0) 0 (sortedImages sorted)
        (newTypedArray (constructor (getPixelData image0))
           (rows image0 * columns image0 * length (sortedImages sorted))) = Ok buf
    ∧ vol = localVolumeOf ("vol-" +:+ pretty t0) image0 sorted buf t1.
Proof.
  unfold volumeRenderer.createVolumeViewport.
  intros (images & Hload & (sorted & Hsort & H)%bind_Ok_inv)%bind_Ok_inv.
  destruct (sortedImages sorted !! 0) as [[image0|]|] eqn:H0; [|discriminate..].
  apply bind_Ok_inv in H as (buf & Hfill & [= <-]).
  by exists images, sorted, image0, buf.
Qed.

(** When every sorted slice fits a slot of the first slice's size the
    assembly succeeds: slot [k] starts with the converted samples of slice
    [k] and keeps the zero it was allocated with after them. *)
Lemma createVolumeViewport_fits imageIds t0 t1 images sorted image0 :
  mapM loadAndCacheImage imageIds = Ok images →
  sortImages imageIds images = Ok sorted →
  sortedImages sorted !! 0 = Some (Some image0) →
  forallb (fitsSlot (rows image0 * columns image0)) (sortedImages sorted) = true →
  ∃ buf,
    createVolumeViewport imageIds t0 t1
      = Ok (localVolumeOf ("vol-" +:+ pretty t0) image0 sorted buf t1)
    ∧ constructor buf = constructor (getPixelData image0)
    ∧ arrayLength buf = rows image0 * columns image0 * length (sortedImages sorted)
    ∧ ∀ k img p, sortedImages sorted !! k = Some (Some img) →
        p < rows image0 * columns image0 →
        elements buf !! (k * (rows image0 * columns image0) + p) =
          if decide (p < arrayLength (getPixelData img))
          then convertElement (constructor (getPixelData img))
                 (constructor (getPixelData image0))
                 <$> elements (getPixelData img) !! p
          else Some 0%Z.
Proof.
  intros Hload Hsort H0 Hfit.
  set (sliceSize := rows image0 * columns image0) in *.
  set (buf0 := newTypedArray (constructor (getPixelData image0))
                 (sliceSize * length (sortedImages sorted))).
  destruct (fillScalarData_fits sliceSize (sortedImages sorted) 0 buf0 Hfit)
    as (buf & Hfill & _ & Hslots).
  { unfold buf0, arrayLength. simpl. rewrite length_replicate. lia. }
  destruct (fillScalarData_shape _ _ _ _ _ Hfill) as [Hc Hl].
  exists buf. split; [|split; [done|split]].
  - unfold volumeRenderer.createVolumeViewport. rewrite Hload. simpl.
    rewrite Hsort. simpl. rewrite H0. fold sliceSize buf0. by rewrite Hfill.
  - rewrite Hl. unfold buf0, arrayLength. simpl. by rewrite length_replicate.
  - intros k img p Hk Hp. specialize (Hslots k img p Hk Hp).
    rewrite Nat.add_0_l in Hslots. rewrite Hslots. simpl.
    case_decide; [done|]. apply lookup_replicate_2.
    apply lookup_lt_Some in Hk. nia.
Qed.

End AssemblyProperties.

(** ** The spatial sorter returns as many ids as it is given *)

Lemma insertByDepth_length x l : length (insertByDepth x l) = S (length l).
Proof.
  induction l as [|y l IH]; simpl; [done|].
  destruct (Qle_bool (depth x) (depth y)); simpl; [done|]. by rewrite IH.
Qed.

Lemma sortByDepth_length l : length (sortByDepth l) = length l.
Proof.
  induction l as [|x l IH]; simpl; [done|].
  rewrite insertByDepth_length. by rewrite IH.
Qed.

Lemma spatialSorter_length geometry imageIds r :
  spatialSorter geometry imageIds = Some r →
  length (sortedImageIds r) = length imageIds.
Proof.
  unfold spatialSorter. destruct imageIds as [|id0 [|id1 rest]]; [done..|].
  set (imageIds := id0 :: id1 :: rest).
  intros (o & _ & (ps & Hps & (first & _ & (final & _ & [= <-])
    %bind_Some)%bind_Some)%bind_Some)%bind_Some.
  simpl. rewrite length_fmap, sortByDepth_length.
  apply mapM_Some_1, Forall2_length in Hps. by rewrite <- Hps.
Qed.

(** ** Buffer length and dimensions *)

(** C2. A volume that is assembled has a scalar buffer of exactly
    [columns * rows * sliceCount] elements, where [rows] and [columns] are
    those of the first slice after sorting and [sliceCount], the third
    dimension, is the number of input slices. The library sorter is assumed
    to return as many ids as it is given. *)
Theorem scalar_buffer_length
    (loadAndCacheImage : string → Result DicomImage)
    (sortImageIdsAndGetSpacing : list string → option SortResult)
    (fround : Q → Q) (imageIds : list string) (t0 t1 : N) (vol : LocalVolume) :
  (∀ ids r, sortImageIdsAndGetSpacing ids = Some r →
            length (sortedImageIds r) = length ids) →
  createVolumeViewport loadAndCacheImage sortImageIdsAndGetSpacing fround
    imageIds t0 t1 = Ok vol →
  ∃ images sorted image0,
    mapM loadAndCacheImage imageIds = Ok images
    ∧ sortImages sortImageIdsAndGetSpacing imageIds images = Ok sorted
    ∧ sortedImages sorted !! 0 = Some (Some image0)
    ∧ dimensions vol = (columns image0, rows image0, length imageIds)
    ∧ arrayLength (scalarData vol)
        = columns image0 * rows image0 * length imageIds.
Proof.
  intros Hsorter (images & sorted & image0 & buf & Hload & Hsort & H0 & Hfill & ->)
    %createVolumeViewport_Ok_inv.
  exists images, sorted, image0. split; [done|]. split; [done|]. split; [done|].
  assert (length (sortedImages sorted) = length imageIds) as Hn.
  { eapply sortImages_length; [by eauto| |done].
    by eapply mapM_Result_length. }
  simpl. rewrite Hn. split; [done|].
  apply fillScalarData_shape in Hfill as [_ ->].
  unfold arrayLength. simpl. rewrite length_replicate, Hn. lia.
Qed.

Lemma scalar_buffer_length_witness :
  createVolumeViewport (loaderOf threeSlices) (spatialSorter (geometryOf threeGeometry))
    identityRound ["a"; "b"; "c"] 5 7 = Ok threeSliceVolume
  ∧ ∃ images sorted image0,
      mapM (loaderOf threeSlices) ["a"; "b"; "c"] = Ok images
      ∧ sortImages (spatialSorter (geometryOf threeGeometry)) ["a"; "b"; "c"] images
          = Ok sorted
      ∧ sortedImages sorted !! 0 = Some (Some image0)
      ∧ dimensions threeSliceVolume = (columns image0, rows image0, 3)
      ∧ arrayLength (scalarData threeSliceVolume) = columns image0 * rows image0 * 3.
Proof.
  split; [vm_compute; reflexivity|].
  apply (scalar_buffer_length (loaderOf threeSlices)
           (spatialSorter (geometryOf threeGeometry)) identityRound
           ["a"; "b"; "c"] 5 7 threeSliceVolume).
  - intros ids r. apply spatialSorter_length.
  - vm_compute; reflexivity.
Defined.

(** ** Verbatim copy of uniform slices *)

(** C3. When every sorted slice has the rows, the columns and the pixel kind
    of the first one (and, as the data model requires, [rows * columns]
    samples), the assembly succeeds and slot
    [[z * rows*columns, (z+1) * rows*columns)] of the buffer is exactly the
    pixel data of sorted slice [z]: voxel (x, y, z), at offset
    [z*(columns*rows) + y*columns + x], is sample [y*columns + x] of that
    slice, bit for bit. *)
Theorem verbatim_slice_copy
    (loadAndCacheImage : string → Result DicomImage)
    (sortImageIdsAndGetSpacing : list string → option SortResult)
    (fround : Q → Q) (imageIds : list string) (t0 t1 : N)
    (images : list DicomImage) (sorted : SortedImages) (image0 : DicomImage) :
  mapM loadAndCacheImage imageIds = Ok images →
  sortImages sortImageIdsAndGetSpacing imageIds images = Ok sorted →
  sortedImages sorted !! 0 = Some (Some image0) →
  forallb (sameGridAndKind image0) (sortedImages sorted) = true →
  ∃ vol,
    createVolumeViewport loadAndCacheImage sortImageIdsAndGetSpacing fround
      imageIds t0 t1 = Ok vol
    ∧ ∀ z img, sortedImages sorted !! z = Some (Some img) →
        take (rows image0 * columns image0)
          (drop (z * (rows image0 * columns image0)) (elements (scalarData vol)))
          = elements (getPixelData img)
        ∧ ∀ x y, x < columns image0 → y < rows image0 →
            ∃ v, elements (getPixelData img) !! (y * columns image0 + x) = Some v
              ∧ elements (scalarData vol)
                  !! (z * (columns image0 * rows image0) + y * columns image0 + x)
                  = Some v.
Proof.
  intros Hload Hsort H0 Hsame.
  destruct (createVolumeViewport_fits loadAndCacheImage sortImageIdsAndGetSpacing
              fround imageIds t0 t1 images sorted image0 Hload Hsort H0)
    as (buf & Hrun & Hc & Hl & Hslots); [by apply sameGridAndKind_fits|].
  eexists. split; [exact Hrun|]. simpl. intros z img Hz.
  assert (constructor (getPixelData img) = constructor (getPixelData image0)
          ∧ arrayLength (getPixelData img) = rows image0 * columns image0)
    as [Hk Hlen].
  { rewrite forallb_forall in Hsame.
    specialize (Hsame (Some img)). simpl in Hsame.
    assert (In (Some img) (sortedImages sorted)) as Hin
      by (apply list_elem_of_In; eapply list_elem_of_lookup_2; eauto).
    apply Hsame, bool_decide_eq_true in Hin as (-> & -> & -> & ->). done. }
  assert (∀ p, p < rows image0 * columns image0 →
            elements buf !! (z * (rows image0 * columns image0) + p)
              = elements (getPixelData img) !! p) as Hcopy.
  { intros p Hp. rewrite (Hslots z img p Hz Hp). rewrite decide_True by lia.
    rewrite Hk. destruct (elements (getPixelData img) !! p); simpl; [|done].
    by rewrite convertElement_same. }
  split.
  - apply list_eq. intros p. rewrite lookup_take, lookup_drop. case_decide.
    + by apply Hcopy.
    + symmetry. apply lookup_ge_None_2. unfold arrayLength in Hlen. lia.
  - intros x y Hx Hy.
    assert (y * columns image0 + x < rows image0 * columns image0) as Hp by nia.
    destruct (lookup_lt_is_Some_2 (elements (getPixelData img))
                (y * columns image0 + x)) as [v Hv].
    { unfold arrayLength in Hlen. lia. }
    exists v. split; [done|]. rewrite <- Hv, <- (Hcopy _ Hp). f_equal. lia.
Qed.

Lemma verbatim_slice_copy_witness :
  ∃ vol,
    createVolumeViewport (loaderOf threeSlices) (spatialSorter (geometryOf threeGeometry))
      identityRound ["a"; "b"; "c"] 5 7 = Ok vol
    ∧ ∀ z img, sortedImages threeSorted !! z = Some (Some img) →
        take (1 * 2) (drop (z * (1 * 2)) (elements (scalarData vol)))
          = elements (getPixelData img)
        ∧ ∀ x y, x < 2 → y < 1 →
            ∃ v, elements (getPixelData img) !! (y * 2 + x) = Some v
              ∧ elements (scalarData vol) !! (z * (2 * 1) + y * 2 + x) = Some v.
Proof.
  apply (verbatim_slice_copy (loaderOf threeSlices)
           (spatialSorter (geometryOf threeGeometry)) identityRound
           ["a"; "b"; "c"] 5 7 (threeSlices.*2) threeSorted
           (bareImage 1 2 (mkTypedArray Int16Array [11; 12]%Z)));
    vm_compute; reflexivity.
Defined.

(** ** Pixel kind of the buffer *)

(** C4. The buffer of an assembled volume has the constructor of the first
    sorted slice's pixel data; for two 4 x 4 slices whose first slice holds
    16-bit integers the buffer is an [Int16Array] of 32 elements. *)
Theorem buffer_kind_of_first_slice
    (loadAndCacheImage : string → Result DicomImage)
    (sortImageIdsAndGetSpacing : list string → option SortResult)
    (fround : Q → Q) (imageIds : list string) (t0 t1 : N) (vol : LocalVolume) :
  createVolumeViewport loadAndCacheImage sortImageIdsAndGetSpacing fround
    imageIds t0 t1 = Ok vol →
  ∃ images sorted image0,
    mapM loadAndCacheImage imageIds = Ok images
    ∧ sortImages sortImageIdsAndGetSpacing imageIds images = Ok sorted
    ∧ sortedImages sorted !! 0 = Some (Some image0)
    ∧ constructor (scalarData vol) = constructor (getPixelData image0)
    ∧ (length (sortedImages sorted) = 2 →
       rows image0 = 4 → columns image0 = 4 →
       constructor (getPixelData image0) = Int16Array →
       constructor (scalarData vol) = Int16Array
       ∧ arrayLength (scalarData vol) = 32).
Proof.
  intros (images & sorted & image0 & buf & Hload & Hsort & H0 & Hfill & ->)
    %createVolumeViewport_Ok_inv.
  exists images, sorted, image0. split; [done|]. split; [done|]. split; [done|].
  apply fillScalarData_shape in Hfill as [Hc Hl]. simpl in *.
  split; [done|]. intros Hn Hr Hcol Hk. split; [congruence|].
  rewrite Hl. unfold arrayLength. simpl. rewrite length_replicate, Hn, Hr, Hcol.
  done.
Qed.

Lemma buffer_kind_of_first_slice_witness :
  ∃ images sorted image0,
    mapM (loaderOf twoSlices4x4) ["p"; "q"] = Ok images
    ∧ sortImages (spatialSorter noGeometry) ["p"; "q"] images = Ok sorted
    ∧ sortedImages sorted !! 0 = Some (Some image0)
    ∧ constructor (scalarData twoSlices4x4Volume) = constructor (getPixelData image0)
    ∧ (length (sortedImages sorted) = 2 →
       rows image0 = 4 → columns image0 = 4 →
       constructor (getPixelData image0) = Int16Array →
       constructor (scalarData twoSlices4x4Volume) = Int16Array
       ∧ arrayLength (scalarData twoSlices4x4Volume) = 32).
Proof.
  apply (buffer_kind_of_first_slice (loaderOf twoSlices4x4)
           (spatialSorter noGeometry) identityRound ["p"; "q"] 5 7
           twoSlices4x4Volume).
  vm_compute; reflexivity.
Defined.

(** ** Sorting three axial slices *)

Lemma depth_axial (x y z : Q) :
  (dot (x, y, z) (cross (1, 0, 0) (0, 1, 0)) == z)%Q.
Proof. unfold dot, cross. ring. Qed.

Lemma imageMapOf_three id1 id2 id3 img1 img2 img3 :
  id1 ≠ id2 → id1 ≠ id3 → id2 ≠ id3 →
  (λ id, mjoin (imageMapOf [id1; id2; id3] [img1; img2; img3] !! id))
    <$> [id2; id3; id1] = [Some img2; Some img3; Some img1].
Proof.
  intros H12 H13 H23. unfold imageMapOf. simpl.
  by simplify_map_eq.
Qed.

(** C1. Three slices whose positions have z-components 30, 10 and 20, all
    with the identity orientation axes, are ordered ascending by depth
    (the slice at 10, then the one at 20, then the one at 30); the spacing is
    (30 - 10) / 2 = 10 and the origin is the position of the slice at
    depth 10. *)
Theorem three_slices_sorted_by_depth
    (geometry : string → SliceGeometry) (id1 id2 id3 : string)
    (x1 y1 z1 x2 y2 z2 x3 y3 z3 : Q) (img1 img2 img3 : DicomImage) :
  geometry id1 = axial x1 y1 z1 → (z1 == 30)%Q →
  geometry id2 = axial x2 y2 z2 → (z2 == 10)%Q →
  geometry id3 = axial x3 y3 z3 → (z3 == 20)%Q →
  ∃ sorted,
    sortImages (spatialSorter geometry) [id1; id2; id3] [img1; img2; img3] = Ok sorted
    ∧ sortedImages sorted = [Some img2; Some img3; Some img1]
    ∧ (zSpacing sorted == 10)%Q
    ∧ volumeOrigin sorted = (x2, y2, z2).
Proof.
  intros G1 Z1 G2 Z2 G3 Z3.
  assert (id1 ≠ id2) as H12.
  { intros ->. rewrite G1 in G2. injection G2 as _ _ E. rewrite E, Z2 in Z1. done. }
  assert (id1 ≠ id3) as H13.
  { intros ->. rewrite G1 in G3. injection G3 as _ _ E. rewrite E, Z3 in Z1. done. }
  assert (id2 ≠ id3) as H23.
  { intros ->. rewrite G2 in G3. injection G3 as _ _ E. rewrite E, Z3 in Z2. done. }
  set (n := cross (1, 0, 0)%Q (0, 1, 0)%Q).
  assert (Qle_bool (dot (x2, y2, z2) n) (dot (x3, y3, z3) n) = true) as L23.
  { unfold n. by rewrite !depth_axial, Z2, Z3. }
  assert (Qle_bool (dot (x1, y1, z1) n) (dot (x2, y2, z2) n) = false) as L12.
  { unfold n. by rewrite !depth_axial, Z1, Z2. }
  assert (Qle_bool (dot (x1, y1, z1) n) (dot (x3, y3, z3) n) = false) as L13.
  { unfold n. by rewrite !depth_axial, Z1, Z3. }
  assert (spatialSorter geometry [id1; id2; id3]
          = Some {| sortedImageIds := [id2; id3; id1];
                    sortZSpacing :=
                      ((dot (x1, y1, z1) n - dot (x2, y2, z2) n)
                       / inject_Z (Z.of_nat 3 - 1))%Q;
                    sortOrigin := (x2, y2, z2) |}) as Hsort.
  { unfold spatialSorter, project. cbn [mapM]. rewrite G1, G2, G3.
    cbn [orientationPatient positionPatient axial mbind option_bind mapM mret
         option_ret fst snd sortByDepth foldr insertByDepth depth].
    fold n. rewrite L23. cbn [insertByDepth depth]. rewrite L12.
    cbn [insertByDepth depth]. rewrite L13. reflexivity. }
  unfold sortImages. rewrite Hsort. eexists. split; [reflexivity|].
  cbn [sortedImages zSpacing volumeOrigin sortedImageIds sortZSpacing sortOrigin].
  split; [by apply imageMapOf_three|]. split; [|done].
  unfold n. by rewrite !depth_axial, Z1, Z2.
Qed.

Lemma three_slices_sorted_by_depth_witness :
  ∃ sorted,
    sortImages (spatialSorter (geometryOf threeGeometry)) ["a"; "b"; "c"]
      (threeSlices.*2) = Ok sorted
    ∧ sortedImages sorted = sortedImages threeSorted
    ∧ (zSpacing sorted == 10)%Q
    ∧ volumeOrigin sorted = (0, 0, 10)%Q.
Proof.
  apply (three_slices_sorted_by_depth (geometryOf threeGeometry) "a" "b" "c"
           0 0 30 0 0 10 0 0 20); reflexivity.
Defined.

(** ** The fallback path *)

Lemma spatialSorter_fallback geometry imageIds :
  length imageIds = 1
  ∨ (∃ id0, imageIds !! 0 = Some id0
       ∧ (positionPatient (geometry id0) = None
          ∨ orientationPatient (geometry id0) = None)) →
  spatialSorter geometry imageIds = None.
Proof.
  unfold spatialSorter. destruct imageIds as [|id0 [|id1 rest]]; [done..|].
  intros [?|(id & [= <-] & [Hp|Ho])]; [done| |].
  - destruct (orientationPatient (geometry id0)); [|done].
    simpl. unfold project. by rewrite Hp.
  - by rewrite Ho.
Qed.

(** C5, as the code has it. For a non-empty slice list whose first slice
    lacks a position or an orientation among its geometric tags, or which
    has a single slice, the sorter falls back without an error: the order is
    the input order, the spacing is the first slice's thickness when that is
    present and not zero, and 1 otherwise, and the origin is the [origin]
    of the first slice's decoded image, or (0, 0, 0) when the image has
    none, whatever position the geometric tags carry. *)
Theorem fallback_on_missing_geometry
    (geometry : string → SliceGeometry) (imageIds : list string)
    (images : list DicomImage) (image0 : DicomImage) :
  images !! 0 = Some image0 →
  length imageIds = 1
  ∨ (∃ id0, imageIds !! 0 = Some id0
       ∧ (positionPatient (geometry id0) = None
          ∨ orientationPatient (geometry id0) = None)) →
  ∃ sorted,
    sortImages (spatialSorter geometry) imageIds images = Ok sorted
    ∧ sortedImages sorted = Some <$> images
    ∧ zSpacing sorted =
        match sliceThickness image0 with
        | Some t => if Qeq_bool t 0 then 1%Q else t
        | None => 1%Q
        end
    ∧ volumeOrigin sorted = default (0, 0, 0)%Q (origin image0).
Proof.
  intros H0 Hmissing. unfold sortImages.
  rewrite (spatialSorter_fallback _ _ Hmissing), H0. by eexists.
Qed.

(** The single slice of thickness 2.5 without geometric tags and without
    an origin of its own. *)
Lemma fallback_on_missing_geometry_witness :
  origin thickSlice = None
  ∧ ∃ sorted,
      sortImages (spatialSorter noGeometry) ["s"] [thickSlice] = Ok sorted
      ∧ sortedImages sorted = Some <$> [thickSlice]
      ∧ zSpacing sorted = (5 # 2)%Q
      ∧ volumeOrigin sorted = (0, 0, 0)%Q.
Proof.
  split; [reflexivity|].
  apply (fallback_on_missing_geometry noGeometry ["s"] [thickSlice] thickSlice).
  - reflexivity.
  - left. reflexivity.
Defined.

(** C5 as stated fails in three places. Where the first slice has a
    thickness of 0, the thickness is present, yet the spacing is 1. Where the
    geometric tags of the first slice carry a position and no orientation
    and its decoded image has no origin, the origin is (0, 0, 0) and not
    that position. And a single slice without geometric tags, of thickness
    2.5, whose decoded image has the origin (1, 2, 3) yields that origin and
    not (0, 0, 0). *)
Lemma fallback_counterexample :
  (sliceThickness zeroThicknessSlice = Some 0%Q
   ∧ ∃ sorted,
       sortImages (spatialSorter noGeometry) ["s"] [zeroThicknessSlice] = Ok sorted
       ∧ zSpacing sorted = 1%Q
       ∧ ¬ (zSpacing sorted == statedFallbackSpacing zeroThicknessSlice)%Q)
  ∧ (positionPatient (positionOnly "s") = Some (1, 2, 3)%Q
     ∧ orientationPatient (positionOnly "s") = None
     ∧ origin thickSlice = None
     ∧ ∃ sorted,
         sortImages (spatialSorter positionOnly) ["s"] [thickSlice] = Ok sorted
         ∧ volumeOrigin sorted = (0, 0, 0)%Q
         ∧ statedFallbackOrigin positionOnly "s" = (1, 2, 3)%Q
         ∧ volumeOrigin sorted ≠ statedFallbackOrigin positionOnly "s")
  ∧ (positionPatient (noGeometry "s") = None
     ∧ orientationPatient (noGeometry "s") = None
     ∧ sliceThickness originSlice = Some (5 # 2)%Q
     ∧ ∃ sorted,
         sortImages (spatialSorter noGeometry) ["s"] [originSlice] = Ok sorted
         ∧ sortedImages sorted = [Some originSlice]
         ∧ zSpacing sorted = (5 # 2)%Q
         ∧ volumeOrigin sorted = (1, 2, 3)%Q
         ∧ volumeOrigin sorted ≠ (0, 0, 0)%Q).
Proof.
  split; [|split].
  - split; [reflexivity|]. eexists. split; [reflexivity|]. split; [reflexivity|].
    vm_compute. discriminate.
  - do 3 (split; [reflexivity|]). eexists. split; [reflexivity|].
    do 2 (split; [reflexivity|]). vm_compute. discriminate.
  - do 3 (split; [reflexivity|]). eexists. split; [reflexivity|].
    do 3 (split; [reflexivity|]). vm_compute. discriminate.
Qed.

(** ** Empty input *)

(** C7, as the code has it. With no image id the assembly throws the
    TypeError of reading the first slice, whatever the sorter does. *)
Theorem empty_input_type_error
    (loadAndCacheImage : string → Result DicomImage)
    (sortImageIdsAndGetSpacing : list string → option SortResult)
    (fround : Q → Q) (t0 t1 : N) :
  createVolumeViewport loadAndCacheImage sortImageIdsAndGetSpacing fround [] t0 t1
    = Throw TypeError.
Proof.
  unfold createVolumeViewport, sortImages. cbn [mapM mret Result_ret mbind Result_bind].
  destruct (sortImageIdsAndGetSpacing []) as [r|]; [|reflexivity].
  cbn [mbind Result_bind sortedImages]. unfold imageMapOf. cbn [imap foldl].
  destruct (sortedImageIds r) as [|id rest]; [reflexivity|].
  cbn [fmap list_fmap]. rewrite lookup_empty. reflexivity.
Qed.

(** C7 as stated fails: the error is not one named EmptyInput. *)
Lemma empty_input_counterexample :
  createVolumeViewport (loaderOf []) (spatialSorter noGeometry) identityRound [] 0 0
    ≠ Throw (NamedError "EmptyInput").
Proof. vm_compute. discriminate. Qed.

(** ** Slices of differing grids *)





(** ** Two runs on the same input *)




(** ** Slices of another pixel kind *)

Lemma fillScalarData_own sliceSize imgs : ∀ i buf buf',
  fillScalarData sliceSize i imgs buf = Ok buf' →
  (∀ j, j < i * sliceSize → elements buf' !! j = elements buf !! j)
  ∧ (∀ k img p raw, imgs !! k = Some (Some img) → p < sliceSize →
       elements (getPixelData img) !! p = Some raw →
       elements buf' !! ((i + k) * sliceSize + p)
         = Some (convertElement (constructor (getPixelData img)) (constructor buf) raw)).
Proof.
  induction imgs as [|[img|] rest IH]; intros i buf buf'; simpl.
  - intros [= <-]. split; [done|]. intros k img p raw Hk. by destruct k.
  - intros (buf1 & Hset & Hfill)%bind_Ok_inv.
    apply set_Ok_inv in Hset as (Hroom & Hc1 & He1).
    destruct (IH _ _ _ Hfill) as [Hfront Hslots]. split.
    + intros j Hj. rewrite Hfront by lia. rewrite He1.
      by apply list_lookup_inserts_lt.
    + intros k img' p raw Hk Hp Hraw. destruct k as [|k]; simpl in Hk.
      * injection Hk as ->. rewrite Nat.add_0_r. rewrite Hfront by lia.
        rewrite He1. pose proof (lookup_lt_Some _ _ _ Hraw) as Hlt.
        rewrite list_lookup_inserts.
        -- rewrite list_lookup_fmap.
           replace (i * sliceSize + p - i * sliceSize) with p by lia.
           by rewrite Hraw.
        -- rewrite length_fmap. lia.
        -- unfold arrayLength in Hroom. lia.
      * replace ((i + S k) * sliceSize + p) with ((S i + k) * sliceSize + p) by lia.
        rewrite (Hslots k img' p raw Hk Hp Hraw). by rewrite Hc1.
  - discriminate.
Qed.

Lemma createVolumeViewport_own_samples
    (loadAndCacheImage : string → Result DicomImage)
    (sortImageIdsAndGetSpacing : list string → option SortResult)
    (fround : Q → Q) (imageIds : list string) (t0 t1 : N) (vol : LocalVolume) :
  createVolumeViewport loadAndCacheImage sortImageIdsAndGetSpacing fround
    imageIds t0 t1 = Ok vol →
  ∃ images sorted image0,
    mapM loadAndCacheImage imageIds = Ok images
    ∧ sortImages sortImageIdsAndGetSpacing imageIds images = Ok sorted
    ∧ sortedImages sorted !! 0 = Some (Some image0)
    ∧ vol = localVolumeOf fround ("vol-" +:+ pretty t0) image0 sorted (scalarData vol) t1
    ∧ constructor (scalarData vol) = constructor (getPixelData image0)
    ∧ ∀ k img p raw,
        sortedImages sorted !! k = Some (Some img) →
        p < rows image0 * columns image0 →
        elements (getPixelData img) !! p = Some raw →
        elements (scalarData vol) !! (k * (rows image0 * columns image0) + p)
          = Some (convertElement (constructor (getPixelData img))
                    (constructor (getPixelData image0)) raw).
Proof.
  intros (images & sorted & image0 & buf & Hload & Hsort & H0 & Hfill & ->)
    %createVolumeViewport_Ok_inv.
  exists images, sorted, image0. do 4 (split; [done|]).
  split; [by apply fillScalarData_shape in Hfill as [? _]|].
  apply fillScalarData_own in Hfill as [_ Hslots].
  intros k img p raw Hk Hp Hraw. apply (Hslots k img p raw Hk Hp Hraw).
Qed.

(** C9, as the code has it. Whenever the volume is assembled, as it is when
    no sorted slice has more samples than the first one's [rows * columns],
    the buffer keeps the constructor of the first sorted slice, and a slice
    of another kind is copied element by element, each sample converted by
    value to the buffer's element type: sample [p < rows * columns] of
    slice [k] is, converted, element [k * rows*columns + p]. *)
Theorem mixed_kind_conversion
    (loadAndCacheImage : string → Result DicomImage)
    (sortImageIdsAndGetSpacing : list string → option SortResult)
    (fround : Q → Q) (imageIds : list string) (t0 t1 : N)
    (images : list DicomImage) (sorted : SortedImages) (image0 : DicomImage) :
  mapM loadAndCacheImage imageIds = Ok images →
  sortImages sortImageIdsAndGetSpacing imageIds images = Ok sorted →
  sortedImages sorted !! 0 = Some (Some image0) →
  (forallb (fitsSlot (rows image0 * columns image0)) (sortedImages sorted) = true →
   ∃ vol, createVolumeViewport loadAndCacheImage sortImageIdsAndGetSpacing fround
            imageIds t0 t1 = Ok vol)
  ∧ ∀ vol,
      createVolumeViewport loadAndCacheImage sortImageIdsAndGetSpacing fround
        imageIds t0 t1 = Ok vol →
      constructor (scalarData vol) = constructor (getPixelData image0)
      ∧ ∀ k img p raw,
          sortedImages sorted !! k = Some (Some img) →
          constructor (getPixelData img) ≠ constructor (getPixelData image0) →
          p < rows image0 * columns image0 →
          elements (getPixelData img) !! p = Some raw →
          elements (scalarData vol) !! (k * (rows image0 * columns image0) + p)
            = Some (convertElement (constructor (getPixelData img))
                      (constructor (getPixelData image0)) raw).
Proof.
  intros Hload Hsort H0. split.
  - intros Hfit.
    destruct (createVolumeViewport_fits loadAndCacheImage sortImageIdsAndGetSpacing
                fround imageIds t0 t1 images sorted image0 Hload Hsort H0 Hfit)
      as (buf & Hrun & _). eauto.
  - intros vol
      (images' & sorted' & image0' & Hload' & Hsort' & H0' & _ & Hc & Hown)
      %createVolumeViewport_own_samples.
    rewrite Hload in Hload'. injection Hload' as <-.
    rewrite Hsort in Hsort'. injection Hsort' as <-.
    rewrite H0 in H0'. injection H0' as <-.
    split; [exact Hc|]. intros k img p raw Hk _ Hp Hraw. by apply Hown.
Qed.

Lemma mixed_kind_conversion_witness :
  ∃ vol,
    createVolumeViewport (loaderOf mixedKindSlices) (spatialSorter noGeometry)
      identityRound ["m"; "n"] 0 0 = Ok vol
    ∧ constructor (scalarData vol) = Int16Array
    ∧ ∀ k img p raw,
        (Some <$> mixedKindSlices.*2) !! k = Some (Some img) →
        constructor (getPixelData img) ≠ Int16Array →
        p < 1 * 1 →
        elements (getPixelData img) !! p = Some raw →
        elements (scalarData vol) !! (k * (1 * 1) + p)
          = Some (convertElement (constructor (getPixelData img)) Int16Array raw).
Proof.
  destruct (mixed_kind_conversion (loaderOf mixedKindSlices) (spatialSorter noGeometry)
              identityRound ["m"; "n"] 0 0 (mixedKindSlices.*2)
              {| sortedImages := Some <$> mixedKindSlices.*2; zSpacing := 1;
                 volumeOrigin := (0, 0, 0)%Q |}
              (bareImage 1 1 (mkTypedArray Int16Array [7%Z])))
    as [Hruns Hvol]; [vm_compute; reflexivity..|].
  destruct Hruns as [vol Hrun]; [vm_compute; reflexivity|].
  exists vol. split; [exact Hrun|]. exact (Hvol vol Hrun).
Defined.

(** C9 as stated fails: a binary32 sample 3.1415927 copied into a 16-bit
    integer buffer becomes the element 3, with bytes 03 00; the bytes of the
    second slot are no reinterpretation of the source bytes DB 0F 49 40. *)
Lemma byte_copy_counterexample :
  ∃ vol,
    createVolumeViewport (loaderOf mixedKindSlices) (spatialSorter noGeometry)
      identityRound ["m"; "n"] 0 0 = Ok vol
    ∧ constructor floatPixels ≠ constructor (scalarData vol)
    ∧ elements (scalarData vol) = [7; 3]%Z
    ∧ bytesOf floatPixels = [0xDB; 0x0F; 0x49; 0x40]%Z
    ∧ drop (1 * (1 * 1) * BYTES_PER_ELEMENT (constructor (scalarData vol)))
        (bytesOf (scalarData vol)) = [3; 0]%Z
    ∧ ¬ (drop (1 * (1 * 1) * BYTES_PER_ELEMENT (constructor (scalarData vol)))
           (bytesOf (scalarData vol)) `prefix_of` bytesOf floatPixels)
    ∧ ¬ (bytesOf floatPixels
           `prefix_of` drop (1 * (1 * 1) * BYTES_PER_ELEMENT (constructor (scalarData vol)))
                         (bytesOf (scalarData vol))).
Proof.
  eexists. split; [vm_compute; reflexivity|].
  split; [vm_compute; discriminate|].
  split; [vm_compute; reflexivity|]. split; [vm_compute; reflexivity|].
  split; [vm_compute; reflexivity|].
  split; intros [k Hk]; vm_compute in Hk; discriminate.
Qed.

(** ** Slices shorter than a slot *)

(** C10, as the code has it. When the sorted slices are of one kind and none
    has more samples than the first one's [rows * columns], the assembly
    succeeds; a slice with fewer samples is written at the start of its slot
    and every voxel of the slot past its samples keeps the zero the buffer
    was allocated with. *)
Theorem short_slice_zero_padding
    (loadAndCacheImage : string → Result DicomImage)
    (sortImageIdsAndGetSpacing : list string → option SortResult)
    (fround : Q → Q) (imageIds : list string) (t0 t1 : N)
    (images : list DicomImage) (sorted : SortedImages) (image0 : DicomImage) :
  mapM loadAndCacheImage imageIds = Ok images →
  sortImages sortImageIdsAndGetSpacing imageIds images = Ok sorted →
  sortedImages sorted !! 0 = Some (Some image0) →
  forallb (sameKind image0) (sortedImages sorted) = true →
  forallb (fitsSlot (rows image0 * columns image0)) (sortedImages sorted) = true →
  ∃ vol,
    createVolumeViewport loadAndCacheImage sortImageIdsAndGetSpacing fround
      imageIds t0 t1 = Ok vol
    ∧ ∀ k img, sortedImages sorted !! k = Some (Some img) →
        (∀ p raw, elements (getPixelData img) !! p = Some raw →
           elements (scalarData vol) !! (k * (rows image0 * columns image0) + p)
             = Some raw)
        ∧ (∀ p, arrayLength (getPixelData img) ≤ p →
             p < rows image0 * columns image0 →
             elements (scalarData vol) !! (k * (rows image0 * columns image0) + p)
               = Some 0%Z).
Proof.
  intros Hload Hsort H0 Hkind Hfit.
  destruct (createVolumeViewport_fits loadAndCacheImage sortImageIdsAndGetSpacing
              fround imageIds t0 t1 images sorted image0 Hload Hsort H0 Hfit)
    as (buf & Hrun & _ & _ & Hslots).
  eexists. split; [exact Hrun|]. cbn [scalarData localVolumeOf].
  intros k img Hk. split.
  - intros p raw Hp.
    assert (p < arrayLength (getPixelData img)) as Hlt
      by (eapply lookup_lt_Some; eauto).
    pose proof (fitsSlot_lookup _ _ _ _ Hfit Hk) as Hle.
    assert (constructor (getPixelData img) = constructor (getPixelData image0))
      as Hc.
    { rewrite forallb_forall in Hkind. specialize (Hkind (Some img)).
      simpl in Hkind. eapply bool_decide_eq_true_1, Hkind, list_elem_of_In.
      by eapply list_elem_of_lookup_2. }
    rewrite (Hslots k img p Hk) by lia. rewrite decide_True by done.
    rewrite Hp, Hc. simpl. by rewrite convertElement_same.
  - intros p Hge Hp. rewrite (Hslots k img p Hk Hp). by rewrite decide_False by lia.
Qed.

Lemma short_slice_zero_padding_witness :
  ∃ vol,
    createVolumeViewport (loaderOf mismatchedSlices) (spatialSorter noGeometry)
      identityRound ["u"; "v"] 0 0 = Ok vol
    ∧ ∀ k img, (Some <$> mismatchedSlices.*2) !! k = Some (Some img) →
        (∀ p raw, elements (getPixelData img) !! p = Some raw →
           elements (scalarData vol) !! (k * (2 * 2) + p) = Some raw)
        ∧ (∀ p, arrayLength (getPixelData img) ≤ p → p < 2 * 2 →
             elements (scalarData vol) !! (k * (2 * 2) + p) = Some 0%Z).
Proof.
  refine (short_slice_zero_padding (loaderOf mismatchedSlices)
            (spatialSorter noGeometry) identityRound ["u"; "v"] 0 0
            (mismatchedSlices.*2)
            {| sortedImages := Some <$> mismatchedSlices.*2; zSpacing := 1;
               volumeOrigin := (0, 0, 0)%Q |}
            (bareImage 2 2 (mkTypedArray Int16Array [1; 2; 3; 4]%Z)) _ _ _ _ _);
    vm_compute; reflexivity.
Defined.

(** C10 as stated fails: of three slices of one kind with 2, 4 and 1
    samples, the third is shorter than the first one's [rows * columns] = 2,
    yet the voxel of its slot past its single sample is not 0: it holds the
    8 that the second slice wrote there. With the second and third slices
    exchanged the assembly fails with a RangeError. *)
Lemma short_slice_counterexample :
  (∃ vol sorted image0 img,
     createVolumeViewport (loaderOf unevenSlices) (spatialSorter noGeometry)
       identityRound ["a"; "b"; "c"] 0 0 = Ok vol
     ∧ sortImages (spatialSorter noGeometry) ["a"; "b"; "c"] (unevenSlices.*2)
         = Ok sorted
     ∧ sortedImages sorted !! 0 = Some (Some image0)
     ∧ forallb (sameKind image0) (sortedImages sorted) = true
     ∧ sortedImages sorted !! 2 = Some (Some img)
     ∧ arrayLength (getPixelData img) = 1
     ∧ rows image0 * columns image0 = 2
     ∧ elements (scalarData vol) = [1; 2; 5; 6; 9; 8]%Z
     ∧ elements (scalarData vol) !! (2 * (1 * 2) + 1) ≠ Some 0%Z)
  ∧ createVolumeViewport (loaderOf unevenSlices) (spatialSorter noGeometry)
      identityRound ["a"; "c"; "b"] 0 0 = Throw RangeError.
Proof.
  split; [|vm_compute; reflexivity].
  do 4 eexists. repeat (split; [vm_compute; reflexivity|]).
  vm_compute. discriminate.
Qed.

(** * Further properties of the assembly *)

(** ** When the fill loop succeeds *)

Lemma fillScalarData_Ok_iff sliceSize imgs : ∀ i buf,
  (∃ buf', fillScalarData sliceSize i imgs buf = Ok buf')
  ↔ ∀ k o, imgs !! k = Some o →
      ∃ img, o = Some img
        ∧ arrayLength (getPixelData img) + (i + k) * sliceSize ≤ arrayLength buf.
Proof.
  induction imgs as [|[img|] rest IH]; intros i buf; simpl.
  - split; [|by eauto]. intros _ k o Hk. by destruct k.
  - split.
    + intros [buf' H]. apply bind_Ok_inv in H as (buf1 & Hset & Hfill).
      pose proof (set_arrayLength _ _ _ _ Hset) as Hl.
      apply set_Ok_inv in Hset as (Hroom & _ & _).
      intros [|k] o Hk; simpl in Hk.
      * injection Hk as <-. exists img. split; [done|]. rewrite Nat.add_0_r. lia.
      * destruct (proj1 (IH (S i) buf1) (ex_intro _ buf' Hfill) k o Hk)
          as (img' & -> & Hle).
        exists img'. split; [done|]. rewrite Hl in Hle.
        replace ((i + S k) * sliceSize) with ((S i + k) * sliceSize) by lia. done.
    + intros H. destruct (H 0 (Some img) eq_refl) as (img0 & [= <-] & Hle).
      rewrite Nat.add_0_r in Hle.
      destruct (set_fits buf (getPixelData img) (i * sliceSize)) as [buf1 Hset];
        [lia|].
      rewrite Hset. simpl. apply IH. intros k o Hk.
      destruct (H (S k) o Hk) as (img' & -> & Hle').
      exists img'. split; [done|]. rewrite (set_arrayLength _ _ _ _ Hset).
      replace ((S i + k) * sliceSize) with ((i + S k) * sliceSize) by lia. done.
  - split; [by intros [? ?]|]. intros H.
    by destruct (H 0 None eq_refl) as (? & ? & _).
Qed.

(** X1. Once the slices are decoded and sorted, the assembly succeeds exactly
    when every sorted entry is a slice whose samples, written at its slot
    start, end within the buffer: slice [k] of [N] may hold up to
    [(N - k) * rows * columns] samples, so only the room up to the end of the
    buffer is checked, not the slot. *)
Theorem assembly_succeeds_iff
    (loadAndCacheImage : string → Result DicomImage)
    (sortImageIdsAndGetSpacing : list string → option SortResult)
    (fround : Q → Q) (imageIds : list string) (t0 t1 : N)
    (images : list DicomImage) (sorted : SortedImages) (image0 : DicomImage) :
  mapM loadAndCacheImage imageIds = Ok images →
  sortImages sortImageIdsAndGetSpacing imageIds images = Ok sorted →
  sortedImages sorted !! 0 = Some (Some image0) →
  (∃ vol, createVolumeViewport loadAndCacheImage sortImageIdsAndGetSpacing fround
            imageIds t0 t1 = Ok vol)
  ↔ ∀ k o, sortedImages sorted !! k = Some o →
      ∃ img, o = Some img
        ∧ arrayLength (getPixelData img) + k * (rows image0 * columns image0)
            ≤ rows image0 * columns image0 * length (sortedImages sorted).
Proof.
  intros Hload Hsort H0.
  pose proof (fillScalarData_Ok_iff (rows image0 * columns image0)
                (sortedImages sorted) 0
                (newTypedArray (constructor (getPixelData image0))
                   (rows image0 * columns image0 * length (sortedImages sorted))))
    as Hiff.
  unfold arrayLength at 2 in Hiff. simpl in Hiff. rewrite length_replicate in Hiff.
  rewrite <- Hiff. unfold createVolumeViewport. rewrite Hload. cbn [mbind Result_bind].
  rewrite Hsort. cbn [mbind Result_bind]. rewrite H0. split.
  - intros [vol (buf & Hfill & _)%bind_Ok_inv]. eauto.
  - intros [buf Hfill]. rewrite Hfill. simpl. eauto.
Qed.

Lemma assembly_succeeds_iff_witness :
  (∃ vol, createVolumeViewport (loaderOf unevenSlices) (spatialSorter noGeometry)
            identityRound ["a"; "b"; "c"] 0 0 = Ok vol)
  ↔ ∀ k o, (Some <$> unevenSlices.*2) !! k = Some o →
      ∃ img, o = Some img
        ∧ arrayLength (getPixelData img) + k * (1 * 2) ≤ 1 * 2 * 3.
Proof.
  refine (assembly_succeeds_iff (loaderOf unevenSlices) (spatialSorter noGeometry)
            identityRound ["a"; "b"; "c"] 0 0 (unevenSlices.*2)
            {| sortedImages := Some <$> unevenSlices.*2; zSpacing := 1;
               volumeOrigin := (0, 0, 0)%Q |}
            (bareImage 1 2 (mkTypedArray Int16Array [1; 2]%Z)) _ _ _);
    vm_compute; reflexivity.
Defined.

(** ** A slice's own samples survive *)

(** X2. In every volume that is assembled, whatever the lengths of the
    slices, the part of a slice that lies inside its own slot is there:
    sample [p < rows * columns] of sorted slice [k] is element
    [k * rows * columns + p] of the buffer, converted to the buffer's element
    type. What a longer slice spills into the next slot is overwritten by
    that slot's own slice. *)
Theorem own_samples_survive
    (loadAndCacheImage : string → Result DicomImage)
    (sortImageIdsAndGetSpacing : list string → option SortResult)
    (fround : Q → Q) (imageIds : list string) (t0 t1 : N) (vol : LocalVolume) :
  createVolumeViewport loadAndCacheImage sortImageIdsAndGetSpacing fround
    imageIds t0 t1 = Ok vol →
  ∃ images sorted image0,
    mapM loadAndCacheImage imageIds = Ok images
    ∧ sortImages sortImageIdsAndGetSpacing imageIds images = Ok sorted
    ∧ sortedImages sorted !! 0 = Some (Some image0)
    ∧ ∀ k img p raw,
        sortedImages sorted !! k = Some (Some img) →
        p < rows image0 * columns image0 →
        elements (getPixelData img) !! p = Some raw →
        elements (scalarData vol) !! (k * (rows image0 * columns image0) + p)
          = Some (convertElement (constructor (getPixelData img))
                    (constructor (getPixelData image0)) raw).
Proof.
  intros (images & sorted & image0 & Hload & Hsort & H0 & _ & _ & Hown)
    %createVolumeViewport_own_samples.
  by exists images, sorted, image0.
Qed.

Lemma own_samples_survive_witness :
  ∃ images sorted image0,
    mapM (loaderOf unevenSlices) ["a"; "b"; "c"] = Ok images
    ∧ sortImages (spatialSorter noGeometry) ["a"; "b"; "c"] images = Ok sorted
    ∧ sortedImages sorted !! 0 = Some (Some image0)
    ∧ ∀ k img p raw,
        sortedImages sorted !! k = Some (Some img) →
        p < rows image0 * columns image0 →
        elements (getPixelData img) !! p = Some raw →
        elements (scalarData unevenVolume) !! (k * (rows image0 * columns image0) + p)
          = Some (convertElement (constructor (getPixelData img))
                    (constructor (getPixelData image0)) raw).
Proof.
  apply (own_samples_survive (loaderOf unevenSlices) (spatialSorter noGeometry)
           identityRound ["a"; "b"; "c"] 0 0 unevenVolume).
  vm_compute; reflexivity.
Defined.

(** ** The map from ids to decoded slices *)

Lemma mapM_Result_cons_inv {A B} (f : A → Result B) x l k :
  mapM f (x :: l) = Ok k → ∃ y k', k = y :: k' ∧ f x = Ok y ∧ mapM f l = Ok k'.
Proof.
  simpl. intros (y & Hy & (k' & Hk' & [= <-])%bind_Ok_inv)%bind_Ok_inv. eauto.
Qed.

Lemma imap_loaded loadAndCacheImage imageIds : ∀ images,
  mapM loadAndCacheImage imageIds = Ok images →
  imap (λ i id, (id, images !! i)) imageIds
    = (λ id, (id, loadedImage loadAndCacheImage id)) <$> imageIds
  ∧ Some <$> images = loadedImage loadAndCacheImage <$> imageIds.
Proof.
  induction imageIds as [|id ids IH]; intros images.
  - intros [= <-]. done.
  - intros (img & images' & -> & Hid & Hrest)%mapM_Result_cons_inv.
    destruct (IH images' Hrest) as [IH1 IH2].
    rewrite imap_cons, !fmap_cons. unfold loadedImage at 1 3. rewrite Hid.
    rewrite <- IH1, <- IH2. split; [|done]. f_equal.
Qed.

Lemma foldl_insert_lookup (g : string → option DicomImage) imageIds id :
  ∀ m : gmap string (option DicomImage),
  foldl (λ m e, <[e.1 := e.2]> m) m ((λ id, (id, g id)) <$> imageIds) !! id
    = if decide (id ∈ imageIds) then Some (g id) else m !! id.
Proof.
  induction imageIds as [|x ids IH]; intros m; simpl.
  - done.
  - rewrite IH. destruct (decide (id ∈ ids)) as [Hin|Hnin].
    + rewrite decide_True; [done|by right].
    + destruct (decide (id = x)) as [->|Hne].
      * rewrite lookup_insert_eq. rewrite decide_True; [done|by left].
      * rewrite lookup_insert_ne by done. rewrite decide_False; [done|].
        by intros [?|?]%elem_of_cons.
Qed.

Lemma imageMapOf_lookup loadAndCacheImage imageIds images id :
  mapM loadAndCacheImage imageIds = Ok images →
  mjoin (imageMapOf imageIds images !! id)
    = if decide (id ∈ imageIds) then loadedImage loadAndCacheImage id else None.
Proof.
  intros Hload. unfold imageMapOf.
  rewrite (proj1 (imap_loaded _ _ _ Hload)), foldl_insert_lookup, lookup_empty.
  by case_decide.
Qed.

Lemma mapM_Result_loaded {A B} (f : A → Result B) (l : list A) (k : list B) x :
  mapM f l = Ok k → x ∈ l → ∃ y, f x = Ok y.
Proof.
  revert k. induction l as [|a l IH]; intros k Hk Hx; [by apply elem_of_nil in Hx|].
  apply mapM_Result_cons_inv in Hk as (y & k' & -> & Ha & Hl).
  apply elem_of_cons in Hx as [->|Hx]; eauto.
Qed.

Lemma sorted_images_are_loaded_aux
    (loadAndCacheImage : string → Result DicomImage)
    (sortImageIdsAndGetSpacing : list string → option SortResult)
    (imageIds : list string) (images : list DicomImage) (r : SortResult) :
  mapM loadAndCacheImage imageIds = Ok images →
  sortImageIdsAndGetSpacing imageIds = Some r →
  ∃ sorted,
    sortImages sortImageIdsAndGetSpacing imageIds images = Ok sorted
    ∧ (∀ k id, sortedImageIds r !! k = Some id → id ∉ imageIds →
         sortedImages sorted !! k = Some None).
Proof.
  intros Hload Hr. unfold sortImages. rewrite Hr. eexists. split; [done|].
  cbn [sortedImages]. intros k id Hk Hnin. rewrite list_lookup_fmap, Hk. simpl.
  by rewrite (imageMapOf_lookup _ _ _ _ Hload), decide_False.
Qed.

Lemma foldl_insert_notin (entries : list (string * option DicomImage)) id :
  ∀ m : gmap string (option DicomImage),
  id ∉ entries.*1 →
  foldl (λ m e, <[e.1 := e.2]> m) m entries !! id = m !! id.
Proof.
  induction entries as [|[k v] entries IH]; intros m Hnin; simpl; [done|].
  rewrite IH.
  - rewrite lookup_insert_ne; [done|]. intros ->. apply Hnin. by left.
  - intros Hin. apply Hnin. by right.
Qed.

Lemma foldl_insert_at (entries : list (string * option DicomImage)) :
  ∀ (m : gmap string (option DicomImage)) j id v,
  NoDup entries.*1 →
  entries !! j = Some (id, v) →
  foldl (λ m e, <[e.1 := e.2]> m) m entries !! id = Some v.
Proof.
  induction entries as [|[k w] entries IH]; intros m j id v Hnd Hj; [done|].
  simpl in Hnd. apply NoDup_cons in Hnd as [Hk Hnd]. destruct j as [|j]; simpl in *.
  - injection Hj as -> ->. rewrite foldl_insert_notin by done.
    apply lookup_insert_eq.
  - by apply (IH _ j).
Qed.

Lemma imap_entries_fst (images : list DicomImage) (imageIds : list string) :
  (imap (λ i id, (id, images !! i)) imageIds).*1 = imageIds.
Proof.
  apply list_eq. intros i. rewrite list_lookup_fmap, list_lookup_imap.
  by destruct (imageIds !! i).
Qed.

Lemma imageMapOf_at imageIds images j id :
  NoDup imageIds →
  imageIds !! j = Some id →
  imageMapOf imageIds images !! id = Some (images !! j).
Proof.
  intros Hnd Hj. unfold imageMapOf. apply (foldl_insert_at _ _ j).
  - by rewrite imap_entries_fst.
  - by rewrite list_lookup_imap, Hj.
Qed.

Lemma imageMapOf_notin imageIds images id :
  id ∉ imageIds → imageMapOf imageIds images !! id = None.
Proof.
  intros Hnin. unfold imageMapOf. rewrite foldl_insert_notin; [done|].
  by rewrite imap_entries_fst.
Qed.

(** A library sorter that leaves the id array as it was gives [sortImages]. *)
Lemma sortImagesInPlace_unchanged
    (sortImageIdsAndGetSpacing : list string → option SortResult)
    (imageIds : list string) (images : list DicomImage) :
  sortImagesInPlace (λ ids, (λ r, (r, ids)) <$> sortImageIdsAndGetSpacing ids)
    imageIds images
  = sortImages sortImageIdsAndGetSpacing imageIds images.
Proof.
  unfold sortImagesInPlace, sortImages.
  by destruct (sortImageIdsAndGetSpacing imageIds).
Qed.

(** X3. When the library sorter returns, sorted position [k] holds the slice
    that was decoded at the place where the id the sorter put there now
    stands in the id array, as the sorter left that array; an id that the
    array does not hold yields an undefined entry. So with a sorter that
    leaves the array as it was, position [k] holds the slice decoded for its
    id, and a permutation of the ids yields the decoded slices in that
    permutation; but with a sorter that sorts the array in place and returns
    it, the slices stay in the order of the input. *)
Theorem sorted_images_follow_id_array
    (loadAndCacheImage : string → Result DicomImage)
    (sortImageIdsAndGetSpacing : list string → option (SortResult * list string))
    (imageIds imageIds' : list string) (images : list DicomImage) (r : SortResult) :
  mapM loadAndCacheImage imageIds = Ok images →
  sortImageIdsAndGetSpacing imageIds = Some (r, imageIds') →
  ∃ sorted,
    sortImagesInPlace sortImageIdsAndGetSpacing imageIds images = Ok sorted
    ∧ (NoDup imageIds' →
       ∀ k id j, sortedImageIds r !! k = Some id → imageIds' !! j = Some id →
         sortedImages sorted !! k = Some (images !! j))
    ∧ (∀ k id, sortedImageIds r !! k = Some id → id ∉ imageIds' →
         sortedImages sorted !! k = Some None)
    ∧ (imageIds' = imageIds →
       (∀ k id, sortedImageIds r !! k = Some id → id ∈ imageIds →
          ∃ img, loadAndCacheImage id = Ok img
            ∧ sortedImages sorted !! k = Some (Some img))
       ∧ (sortedImageIds r ≡ₚ imageIds → sortedImages sorted ≡ₚ Some <$> images))
    ∧ (NoDup imageIds' → length imageIds' = length imageIds →
       sortedImageIds r = imageIds' →
       sortedImages sorted = Some <$> images).
Proof.
  intros Hload Hr. unfold sortImagesInPlace. rewrite Hr. eexists. split; [done|].
  cbn [sortedImages]. split; [|split; [|split]].
  - intros Hnd k id j Hk Hj. rewrite list_lookup_fmap, Hk. simpl.
    by rewrite (imageMapOf_at _ _ j).
  - intros k id Hk Hnin. rewrite list_lookup_fmap, Hk. simpl.
    by rewrite imageMapOf_notin.
  - intros ->.
    assert (∀ id, mjoin (imageMapOf imageIds images !! id)
              = if decide (id ∈ imageIds) then loadedImage loadAndCacheImage id
                else None) as Hmap
      by (intros id; by apply imageMapOf_lookup).
    split.
    + intros k id Hk Hin.
      destruct (mapM_Result_loaded _ _ _ _ Hload Hin) as [img Himg].
      exists img. split; [done|]. rewrite list_lookup_fmap, Hk. simpl.
      rewrite Hmap, decide_True by done. unfold loadedImage. by rewrite Himg.
    + intros Hperm. rewrite (proj2 (imap_loaded _ _ _ Hload)), <- Hperm.
      erewrite list_fmap_ext; [reflexivity|]. intros k id Hk. simpl. rewrite Hmap.
      rewrite decide_True; [done|]. rewrite <- Hperm.
      by eapply list_elem_of_lookup_2.
  - intros Hnd Hlen ->. apply mapM_Result_length in Hload.
    apply list_eq. intros k. rewrite !list_lookup_fmap.
    destruct (imageIds' !! k) as [id|] eqn:Hk; simpl.
    + rewrite (imageMapOf_at _ _ k) by done. simpl.
      destruct (images !! k) as [img|] eqn:Hi; [done|].
      apply lookup_lt_Some in Hk. apply lookup_ge_None in Hi. lia.
    + apply lookup_ge_None in Hk. rewrite lookup_ge_None_2; [done|]. lia.
Qed.

(** A sorter that reverses the three sample ids in place and returns them:
    the slices come out in the order of the input. *)
Lemma sorted_images_follow_id_array_witness :
  ∃ sorted,
    sortImagesInPlace reverseInPlace ["a"; "b"; "c"] (threeSlices.*2) = Ok sorted
    ∧ sortedImages sorted = Some <$> threeSlices.*2.
Proof.
  destruct (sorted_images_follow_id_array (loaderOf threeSlices) reverseInPlace
              ["a"; "b"; "c"] (reverse ["a"; "b"; "c"]) (threeSlices.*2)
              {| sortedImageIds := reverse ["a"; "b"; "c"]; sortZSpacing := 1;
                 sortOrigin := (0, 0, 0)%Q |})
    as (sorted & Hsort & _ & _ & _ & Hsame); [vm_compute; reflexivity..|].
  exists sorted. split; [exact Hsort|]. apply Hsame; [|reflexivity..].
  apply (bool_decide_unpack _). vm_compute. reflexivity.
Defined.

(** X4. If the library sorter returns an id that is not among the ids it
    was given, no volume is produced. *)
Theorem unknown_sorted_id_fails
    (loadAndCacheImage : string → Result DicomImage)
    (sortImageIdsAndGetSpacing : list string → option SortResult)
    (fround : Q → Q) (imageIds : list string) (t0 t1 : N)
    (r : SortResult) (id : string) :
  sortImageIdsAndGetSpacing imageIds = Some r →
  id ∈ sortedImageIds r →
  id ∉ imageIds →
  ∀ vol, createVolumeViewport loadAndCacheImage sortImageIdsAndGetSpacing fround
           imageIds t0 t1 ≠ Ok vol.
Proof.
  intros Hr Hin Hnin vol
    (images & sorted & image0 & buf & Hload & Hsort & H0 & Hfill & _)
    %createVolumeViewport_Ok_inv.
  destruct (sorted_images_are_loaded_aux loadAndCacheImage sortImageIdsAndGetSpacing
              imageIds images r Hload Hr) as (sorted' & Hsort' & Hunknown).
  rewrite Hsort in Hsort'. injection Hsort' as <-.
  apply list_elem_of_lookup in Hin as [k Hk].
  specialize (Hunknown k id Hk Hnin).
  destruct (proj1 (fillScalarData_Ok_iff _ _ _ _) (ex_intro _ buf Hfill)
              k None Hunknown) as (img & [=] & _).
Qed.

Lemma unknown_sorted_id_fails_witness :
  ¬ ∃ vol, createVolumeViewport (loaderOf threeSlices) strangerSorter identityRound
             ["a"; "b"; "c"] 0 0 = Ok vol.
Proof.
  intros [vol Hvol]. revert vol Hvol.
  apply (unknown_sorted_id_fails (loaderOf threeSlices) strangerSorter identityRound
           ["a"; "b"; "c"] 0 0
           {| sortedImageIds := "x" :: reverse ["a"; "b"; "c"]; sortZSpacing := 1;
              sortOrigin := (0, 0, 0)%Q |} "x").
  - reflexivity.
  - by left.
  - intros H. by repeat (apply elem_of_cons in H as [H|H]; [discriminate H|]);
      apply elem_of_nil in H.
Defined.

(** ** Slices of an integer kind in a volume of another kind *)

Lemma truncatedValue_mod k raw :
  isIntegerKind k →
  truncatedValue k (raw mod 2 ^ bitWidth k) = truncatedValue k raw.
Proof.
  intros Hk. destruct k; try (exfalso; apply Hk; reflexivity);
    unfold truncatedValue, signed, bitWidth; simpl; by rewrite Z.mod_mod.
Qed.

Lemma allFrom_spec f n : ∀ z x,
  allFrom f z n = true → (z ≤ x < z + Z.of_nat n)%Z → f x = true.
Proof.
  induction n as [|n IH]; intros z x; simpl; [lia|].
  intros [Hz Hrest]%andb_prop Hx.
  destruct (decide (x = z)) as [->|Hne]; [done|].
  apply (IH (z + 1)%Z); [done|lia].
Qed.

Lemma roundTripsThroughFloat32_all k :
  isIntegerKind k →
  allFrom (roundTripsThroughFloat32 k) 0 (Z.to_nat (2 ^ bitWidth k)) = true.
Proof.
  intros Hk. destruct k; try (exfalso; apply Hk; reflexivity);
    vm_compute; reflexivity.
Qed.

Lemma float32_round_trip k raw :
  isIntegerKind k →
  convertElement Float32Array k (convertElement k Float32Array raw)
    = (raw mod 2 ^ bitWidth k)%Z
  ∧ f32Trunc (convertElement k Float32Array raw) = truncatedValue k raw.
Proof.
  intros Hk.
  assert (convertElement k Float32Array raw
          = convertElement k Float32Array (raw mod 2 ^ bitWidth k)) as ->.
  { unfold convertElement. rewrite !decide_False by exact Hk.
    by rewrite truncatedValue_mod. }
  rewrite <- (truncatedValue_mod k raw Hk).
  assert (0 < 2 ^ bitWidth k)%Z as Hpos by (by destruct k).
  pose proof (Z.mod_pos_bound raw _ Hpos) as Hb.
  pose proof (allFrom_spec _ _ 0%Z (raw mod 2 ^ bitWidth k)%Z
                (roundTripsThroughFloat32_all k Hk)) as Hall.
  unfold roundTripsThroughFloat32 in Hall.
  apply andb_prop in Hall as [H1 H2]; [|lia].
  apply Z.eqb_eq in H1, H2. done.
Qed.

Lemma signed_mod w raw :
  (0 < w)%Z → (signed w raw mod 2 ^ w = raw mod 2 ^ w)%Z.
Proof.
  intros Hw. unfold signed. cbv zeta.
  assert (2 ^ w ≠ 0)%Z as Hne by (apply Z.pow_nonzero; lia).
  destruct (raw mod 2 ^ w <? 2 ^ (w - 1))%Z.
  - by rewrite Z.mod_mod.
  - rewrite <- (Z.mod_add _ 1) by done.
    replace (raw mod 2 ^ w - 2 ^ w + 1 * 2 ^ w)%Z with (raw mod 2 ^ w)%Z by lia.
    by rewrite Z.mod_mod.
Qed.

Lemma same_width_bits k k' raw :
  isIntegerKind k → isIntegerKind k' → k ≠ k' → bitWidth k = bitWidth k' →
  convertElement k k' raw = (raw mod 2 ^ bitWidth k')%Z.
Proof.
  intros Hk Hk' Hne Hw. unfold convertElement. rewrite decide_False by done.
  destruct k, k'; try done; unfold truncatedValue;
    change (bitWidth Int16Array) with 16%Z; change (bitWidth Uint16Array) with 16%Z;
    change (bitWidth Int8Array) with 8%Z; change (bitWidth Uint8Array) with 8%Z;
    first [by apply signed_mod | by rewrite Z.mod_mod].
Qed.

(** X5. In a volume whose buffer is a [Float32Array], a sample of a slice of
    an integer kind is stored as the binary32 number of exactly its value:
    truncating the stored number gives the sample's value and converting it
    back to the slice's kind gives the sample's bits. *)
Theorem integer_samples_exact_in_float_volume
    (loadAndCacheImage : string → Result DicomImage)
    (sortImageIdsAndGetSpacing : list string → option SortResult)
    (fround : Q → Q) (imageIds : list string) (t0 t1 : N) (vol : LocalVolume) :
  createVolumeViewport loadAndCacheImage sortImageIdsAndGetSpacing fround
    imageIds t0 t1 = Ok vol →
  constructor (scalarData vol) = Float32Array →
  ∃ images sorted image0,
    mapM loadAndCacheImage imageIds = Ok images
    ∧ sortImages sortImageIdsAndGetSpacing imageIds images = Ok sorted
    ∧ sortedImages sorted !! 0 = Some (Some image0)
    ∧ ∀ k img p raw,
        sortedImages sorted !! k = Some (Some img) →
        isIntegerKind (constructor (getPixelData img)) →
        p < rows image0 * columns image0 →
        elements (getPixelData img) !! p = Some raw →
        ∃ stored,
          elements (scalarData vol) !! (k * (rows image0 * columns image0) + p)
            = Some stored
          ∧ f32Trunc stored = truncatedValue (constructor (getPixelData img)) raw
          ∧ convertElement Float32Array (constructor (getPixelData img)) stored
              = (raw mod 2 ^ bitWidth (constructor (getPixelData img)))%Z.
Proof.
  intros Hrun Hfloat.
  apply createVolumeViewport_own_samples in Hrun
    as (images & sorted & image0 & Hload & Hsort & H0 & _ & Hc & Hown).
  exists images, sorted, image0. do 3 (split; [done|]).
  assert (constructor (getPixelData image0) = Float32Array) as Hk0 by congruence.
  intros k img p raw Hk Hint Hp Hraw.
  eexists. split; [by apply (Hown k img p raw)|]. rewrite Hk0.
  destruct (float32_round_trip _ raw Hint) as [H1 H2]. done.
Qed.

Lemma integer_samples_exact_in_float_volume_witness :
  ∃ images sorted image0,
    mapM (loaderOf floatFirstSlices) ["f"; "i"] = Ok images
    ∧ sortImages (spatialSorter noGeometry) ["f"; "i"] images = Ok sorted
    ∧ sortedImages sorted !! 0 = Some (Some image0)
    ∧ ∀ k img p raw,
        sortedImages sorted !! k = Some (Some img) →
        isIntegerKind (constructor (getPixelData img)) →
        p < rows image0 * columns image0 →
        elements (getPixelData img) !! p = Some raw →
        ∃ stored,
          elements (scalarData floatFirstVolume)
            !! (k * (rows image0 * columns image0) + p) = Some stored
          ∧ f32Trunc stored = truncatedValue (constructor (getPixelData img)) raw
          ∧ convertElement Float32Array (constructor (getPixelData img)) stored
              = (raw mod 2 ^ bitWidth (constructor (getPixelData img)))%Z.
Proof.
  apply (integer_samples_exact_in_float_volume (loaderOf floatFirstSlices)
           (spatialSorter noGeometry) identityRound ["f"; "i"] 0 0 floatFirstVolume).
  - vm_compute; reflexivity.
  - reflexivity.
Defined.

(** X6. Between integer kinds of the same width the copy keeps the bits: in
    a volume of one 16-bit (or 8-bit) integer kind, a sample of a slice of
    the other kind of that width is stored with its bit pattern unchanged,
    so that an unsigned sample of 2^15 or more reads back negative from a
    signed volume. *)
Theorem same_width_samples_keep_bits
    (loadAndCacheImage : string → Result DicomImage)
    (sortImageIdsAndGetSpacing : list string → option SortResult)
    (fround : Q → Q) (imageIds : list string) (t0 t1 : N) (vol : LocalVolume) :
  createVolumeViewport loadAndCacheImage sortImageIdsAndGetSpacing fround
    imageIds t0 t1 = Ok vol →
  isIntegerKind (constructor (scalarData vol)) →
  ∃ images sorted image0,
    mapM loadAndCacheImage imageIds = Ok images
    ∧ sortImages sortImageIdsAndGetSpacing imageIds images = Ok sorted
    ∧ sortedImages sorted !! 0 = Some (Some image0)
    ∧ ∀ k img p raw,
        sortedImages sorted !! k = Some (Some img) →
        isIntegerKind (constructor (getPixelData img)) →
        constructor (getPixelData img) ≠ constructor (scalarData vol) →
        bitWidth (constructor (getPixelData img))
          = bitWidth (constructor (scalarData vol)) →
        p < rows image0 * columns image0 →
        elements (getPixelData img) !! p = Some raw →
        elements (scalarData vol) !! (k * (rows image0 * columns image0) + p)
          = Some (raw mod 2 ^ bitWidth (constructor (scalarData vol)))%Z.
Proof.
  intros Hrun Hint0.
  apply createVolumeViewport_own_samples in Hrun
    as (images & sorted & image0 & Hload & Hsort & H0 & _ & Hc & Hown).
  exists images, sorted, image0. do 3 (split; [done|]).
  intros k img p raw Hk Hint Hne Hw Hp Hraw.
  rewrite (Hown k img p raw Hk Hp Hraw). f_equal. rewrite <- Hc.
  by apply same_width_bits.
Qed.

Lemma same_width_samples_keep_bits_witness :
  ∃ images sorted image0,
    mapM (loaderOf signedFirstSlices) ["s"; "u"] = Ok images
    ∧ sortImages (spatialSorter noGeometry) ["s"; "u"] images = Ok sorted
    ∧ sortedImages sorted !! 0 = Some (Some image0)
    ∧ ∀ k img p raw,
        sortedImages sorted !! k = Some (Some img) →
        isIntegerKind (constructor (getPixelData img)) →
        constructor (getPixelData img) ≠ constructor (scalarData signedFirstVolume) →
        bitWidth (constructor (getPixelData img))
          = bitWidth (constructor (scalarData signedFirstVolume)) →
        p < rows image0 * columns image0 →
        elements (getPixelData img) !! p = Some raw →
        elements (scalarData signedFirstVolume)
          !! (k * (rows image0 * columns image0) + p)
          = Some (raw mod 2 ^ bitWidth (constructor (scalarData signedFirstVolume)))%Z.
Proof.
  apply (same_width_samples_keep_bits (loaderOf signedFirstSlices)
           (spatialSorter noGeometry) identityRound ["s"; "u"] 0 0 signedFirstVolume).
  - vm_compute; reflexivity.
  - discriminate.
Defined.

(** ** Spacing and metadata of an assembled volume *)

Lemma orNumber_nonzero x d : ¬ (d == 0)%Q → ¬ (orNumber x d == 0)%Q.
Proof.
  intros Hd. unfold orNumber. destruct x as [q|]; [|done].
  destruct (Qeq_bool q 0) eqn:Hq; [done|]. by apply Qeq_bool_neq.
Qed.

(** X7. The two in-plane spacings of an assembled volume are never zero, and
    neither is the slice spacing when the sorter threw and the fallback was
    taken: a missing or zero tag is replaced by 1. (A negative tag is passed
    on as it is.) *)
Theorem spacing_never_zero
    (loadAndCacheImage : string → Result DicomImage)
    (sortImageIdsAndGetSpacing : list string → option SortResult)
    (fround : Q → Q) (imageIds : list string) (t0 t1 : N) (vol : LocalVolume) :
  createVolumeViewport loadAndCacheImage sortImageIdsAndGetSpacing fround
    imageIds t0 t1 = Ok vol →
  ¬ ((spacing vol).1.1 == 0)%Q
  ∧ ¬ ((spacing vol).1.2 == 0)%Q
  ∧ (sortImageIdsAndGetSpacing imageIds = None → ¬ ((spacing vol).2 == 0)%Q).
Proof.
  intros (images & sorted & image0 & buf & Hload & Hsort & H0 & Hfill & ->)
    %createVolumeViewport_Ok_inv.
  cbn [spacing localVolumeOf fst snd].
  split; [by apply orNumber_nonzero|]. split; [by apply orNumber_nonzero|].
  intros Hnone. unfold sortImages in Hsort. rewrite Hnone in Hsort.
  destruct (images !! 0) as [first|]; [|discriminate].
  injection Hsort as <-. cbn [zSpacing]. by apply orNumber_nonzero.
Qed.

Lemma spacing_never_zero_witness :
  ¬ ((spacing twoSlices4x4Volume).1.1 == 0)%Q
  ∧ ¬ ((spacing twoSlices4x4Volume).1.2 == 0)%Q
  ∧ (spatialSorter noGeometry ["p"; "q"] = None →
     ¬ ((spacing twoSlices4x4Volume).2 == 0)%Q).
Proof.
  apply (spacing_never_zero (loaderOf twoSlices4x4) (spatialSorter noGeometry)
           identityRound ["p"; "q"] 5 7 twoSlices4x4Volume).
  vm_compute; reflexivity.
Defined.

(** X8. The geometry and the metadata of an assembled volume agree: the
    metadata's Columns and Rows are the first two dimensions and their
    product times the third is the buffer length, PixelSpacing is the
    in-plane spacing, and ImageOrientationPatient, rounded to binary32, is
    the first six entries of the direction. *)
Theorem metadata_agrees_with_geometry
    (loadAndCacheImage : string → Result DicomImage)
    (sortImageIdsAndGetSpacing : list string → option SortResult)
    (fround : Q → Q) (imageIds : list string) (t0 t1 : N) (vol : LocalVolume) :
  createVolumeViewport loadAndCacheImage sortImageIdsAndGetSpacing fround
    imageIds t0 t1 = Ok vol →
  (dimensions vol).1 = (Columns (metadata vol), Rows (metadata vol))
  ∧ arrayLength (scalarData vol)
      = Rows (metadata vol) * Columns (metadata vol) * (dimensions vol).2
  ∧ PixelSpacing (metadata vol) = (spacing vol).1
  ∧ fround <$> ImageOrientationPatient (metadata vol) = take 6 (volumeDirection vol).
Proof.
  intros (images & sorted & image0 & buf & Hload & Hsort & H0 & Hfill & ->)
    %createVolumeViewport_Ok_inv.
  cbn [dimensions metadata Columns Rows spacing scalarData PixelSpacing
       ImageOrientationPatient volumeDirection localVolumeOf fst snd].
  split; [done|]. split.
  { apply fillScalarData_shape in Hfill as [_ ->].
    unfold arrayLength. simpl. by rewrite length_replicate. }
  split; [done|]. unfold orArray.
  destruct (direction image0) as [d|]; [|done]. simpl. by rewrite fmap_take.
Qed.

Lemma metadata_agrees_with_geometry_witness :
  (dimensions threeSliceVolume).1
    = (Columns (metadata threeSliceVolume), Rows (metadata threeSliceVolume))
  ∧ arrayLength (scalarData threeSliceVolume)
      = Rows (metadata threeSliceVolume) * Columns (metadata threeSliceVolume)
        * (dimensions threeSliceVolume).2
  ∧ PixelSpacing (metadata threeSliceVolume) = (spacing threeSliceVolume).1
  ∧ identityRound <$> ImageOrientationPatient (metadata threeSliceVolume)
      = take 6 (volumeDirection threeSliceVolume).
Proof.
  apply (metadata_agrees_with_geometry (loaderOf threeSlices)
           (spatialSorter (geometryOf threeGeometry)) identityRound
           ["a"; "b"; "c"] 5 7 threeSliceVolume).
  vm_compute; reflexivity.
Defined.

(** * The upload handler *)

Import VolumeViewer.

(** ** The order of the uploaded files *)

Lemma insertByNum_Permutation x l : insertByNum x l ≡ₚ x :: l.
Proof.
  induction l as [|y l IH]; simpl; [done|].
  destruct (num x <=? num y)%N; [done|]. rewrite IH. apply Permutation_swap.
Qed.

Lemma sortByNum_Permutation l : sortByNum l ≡ₚ l.
Proof.
  induction l as [|x l IH]; simpl; [done|].
  by rewrite insertByNum_Permutation, IH.
Qed.

Lemma insertByNum_sorted x l :
  StronglySorted (λ a b, (num a ≤ num b)%N) l →
  StronglySorted (λ a b, (num a ≤ num b)%N) (insertByNum x l).
Proof.
  induction 1 as [|y l Hl IH Hy]; simpl.
  - by repeat constructor.
  - destruct (N.leb_spec (num x) (num y)) as [Hle|Hgt].
    + constructor; [by constructor|]. constructor; [done|].
      eapply Forall_impl; [exact Hy|]. simpl. intros z Hz. lia.
    + constructor; [done|]. rewrite insertByNum_Permutation.
      constructor; [lia|done].
Qed.

Lemma sortByNum_sorted l :
  StronglySorted (λ a b, (num a ≤ num b)%N) (sortByNum l).
Proof.
  induction l as [|x l IH]; simpl; [constructor|]. by apply insertByNum_sorted.
Qed.

Lemma insertByNum_filter n x l :
  filter (λ o, num o = n) (insertByNum x l)
    = filter (λ o, num o = n) (x :: l).
Proof.
  induction l as [|y l IH]; [done|]. cbn [insertByNum].
  destruct (N.leb_spec (num x) (num y)) as [Hle|Hgt]; [done|].
  rewrite filter_cons, IH, !filter_cons.
  repeat case_decide; first [done | lia].
Qed.

Lemma sortByNum_filter n l :
  filter (λ o, num o = n) (sortByNum l) = filter (λ o, num o = n) l.
Proof.
  induction l as [|x l IH]; [done|]. cbn [sortByNum foldr].
  fold (sortByNum l). by rewrite insertByNum_filter, !filter_cons, IH.
Qed.

(** X9. The image ids handed to the assembly are those of the selected
    files, each once, ordered by the first number in the file name (0 for a
    name without a digit), ascending; files with the same number keep the
    order of the selection. Each id is [wadouri:] followed by the file's
    object URL. *)
Theorem upload_order (createObjectURL : File → string) (files : list File) :
  fileObjectsOf files ≡ₚ fileObjectOf <$> files
  ∧ StronglySorted (λ a b, (num a ≤ num b)%N) (fileObjectsOf files)
  ∧ (∀ n, filter (λ o, num o = n) (fileObjectsOf files)
          = fileObjectOf <$> filter (λ f, num (fileObjectOf f) = n) files)
  ∧ imageIdsOf createObjectURL files
      = (λ o, "wadouri:" +:+ createObjectURL (file o)) <$> fileObjectsOf files
  ∧ length (imageIdsOf createObjectURL files) = length files.
Proof.
  unfold fileObjectsOf. split; [apply sortByNum_Permutation|].
  split; [apply sortByNum_sorted|]. split.
  { intros n. rewrite sortByNum_filter. clear.
    induction files as [|f files IH]; [done|].
    rewrite fmap_cons, !filter_cons, IH. by case_decide. }
  unfold imageIdsOf, objectUrlsOf, fileObjectsOf.
  split; [by rewrite <- list_fmap_compose|].
  by rewrite !length_fmap, sortByNum_Permutation, length_fmap.
Qed.

(** ** Object URLs are released *)

Import Uploads.

(** X10. Every object URL created for an upload has been revoked when the
    handler is done, whether the volume was shown, the assembly failed or
    there was no element to render into, and no other URL is revoked. *)
Theorem object_urls_revoked
    (createObjectURL : File → string)
    (loadAndCacheImage : string → Result DicomImage)
    (sortImageIdsAndGetSpacing : list string → option SortResult)
    (fround : Q → Q) (setUp : Result unit) (present : LocalVolume → Result unit)
    (files : list File) (elementPresent : bool) (t0 t1 : N) (st : ViewerState) :
  revokedUrls (handleFileUpload createObjectURL loadAndCacheImage
                 sortImageIdsAndGetSpacing fround setUp present
                 (Some files) elementPresent t0 t1 st)
    = revokedUrls st ++ objectUrlsOf createObjectURL files
  ∧ length (objectUrlsOf createObjectURL files) = length files.
Proof.
  split.
  - destruct files as [|f files]; [by rewrite app_nil_r|].
    unfold handleFileUpload. set (fs := f :: files).
    destruct elementPresent; [|done].
    by destruct (createViewport _ _ _ _ _ _ _ _).
  - unfold objectUrlsOf, fileObjectsOf.
    by rewrite length_fmap, sortByNum_Permutation, length_fmap.
Qed.

(** ** What the status says about the engine *)

Import AsyncUploads.

(** An upload that begins and finishes with nothing in between is
    [handleFileUpload]. *)
Lemma handleFileUpload_split
    createObjectURL loadAndCacheImage sortImageIdsAndGetSpacing fround u st :
  handleFileUpload createObjectURL loadAndCacheImage sortImageIdsAndGetSpacing
    fround (upSetUp u) (upPresent u) (upFiles u) (upElementPresent u)
    (upT0 u) (upT1 u) st
  = match beginUpload createObjectURL loadAndCacheImage sortImageIdsAndGetSpacing
            fround u st with
    | (st1, Some p) => finishUpload p st1
    | (st1, None) => st1
    end.
Proof.
  unfold handleFileUpload, beginUpload, finishUpload.
  destruct (upFiles u) as [[|f files]|]; [done| |done].
  by destruct (upElementPresent u).
Qed.

Lemma createViewport_live
    loadAndCacheImage sortImageIdsAndGetSpacing fround setUp present
    imageIds t0 t1 engine :
  createViewport loadAndCacheImage sortImageIdsAndGetSpacing fround setUp present
    imageIds t0 t1 = Ok engine →
  destroyed engine = false.
Proof.
  unfold createViewport.
  by intros (_ & _ & (vol & _ & (_ & _ & [= <-])%bind_Ok_inv)%bind_Ok_inv)
    %bind_Ok_inv.
Qed.

Lemma destroyEngine_not_live st : ¬ hasLiveEngine (destroyEngine st).
Proof.
  intros (e & He & Hlive). unfold destroyEngine in He. simpl in He.
  destruct (renderingEngineRef st) as [e0|]; [|done].
  simpl in He. injection He as <-. done.
Qed.

Section AsyncProperties.

Variable createObjectURL : File → string.
Variable loadAndCacheImage : string → Result DicomImage.
Variable sortImageIdsAndGetSpacing : list string → option SortResult.
Variable fround : Q → Q.

Local Abbreviation step :=
  (AsyncUploads.step createObjectURL loadAndCacheImage sortImageIdsAndGetSpacing
     fround).
Local Abbreviation runSteps :=
  (AsyncUploads.runSteps createObjectURL loadAndCacheImage
     sortImageIdsAndGetSpacing fround).
Local Abbreviation neverOverlaps :=
  (AsyncUploads.neverOverlaps createObjectURL loadAndCacheImage
     sortImageIdsAndGetSpacing fround).

(** Whatever overlaps: Ready means a live engine, and a waiting upload that
    will succeed brings an engine that has not been destroyed. *)
Lemma step_ready s fl :
  (status (viewer fl) = "Ready" → hasLiveEngine (viewer fl))
  ∧ Forall (λ p, ∀ e, pendingResult p = Ok e → destroyed e = false) (inFlight fl) →
  (status (viewer (step s fl)) = "Ready" → hasLiveEngine (viewer (step s fl)))
  ∧ Forall (λ p, ∀ e, pendingResult p = Ok e → destroyed e = false)
      (inFlight (step s fl)).
Proof.
  intros [Hready Hall]. destruct s as [u|i]; unfold AsyncUploads.step.
  - unfold beginUpload. destruct (upFiles u) as [[|f files]|].
    + by rewrite app_nil_r.
    + destruct (upElementPresent u); cbn [viewer inFlight option_list].
      * split; [done|]. apply Forall_app. split; [done|].
        apply Forall_singleton. intros e He. simpl in He.
        by eapply createViewport_live.
      * by rewrite app_nil_r.
    + by rewrite app_nil_r.
  - destruct (inFlight fl !! i) as [p|] eqn:Hp; [|done].
    cbn [viewer inFlight]. split; [|by apply Forall_delete].
    unfold finishUpload. destruct (pendingResult p) as [engine|e] eqn:Hres; [|done].
    intros _. exists engine. split; [done|].
    by apply (proj1 (Forall_lookup _ _) Hall i p Hp).
Qed.

Lemma runSteps_ready steps : ∀ fl,
  (status (viewer fl) = "Ready" → hasLiveEngine (viewer fl))
  ∧ Forall (λ p, ∀ e, pendingResult p = Ok e → destroyed e = false) (inFlight fl) →
  status (viewer (runSteps steps fl)) = "Ready" →
  hasLiveEngine (viewer (runSteps steps fl)).
Proof.
  induction steps as [|s steps IH]; intros fl Hinv; [by destruct Hinv|].
  apply IH. by apply step_ready.
Qed.

(** Without overlap: Error means no live engine, and so does a waiting
    upload, of which there is at most one. *)
Lemma step_error s fl :
  match s, inFlight fl with Start _, _ :: _ => False | _, _ => True end →
  (status (viewer fl) = "Error" → ¬ hasLiveEngine (viewer fl))
  ∧ (inFlight fl ≠ [] → ¬ hasLiveEngine (viewer fl))
  ∧ length (inFlight fl) ≤ 1 →
  (status (viewer (step s fl)) = "Error" → ¬ hasLiveEngine (viewer (step s fl)))
  ∧ (inFlight (step s fl) ≠ [] → ¬ hasLiveEngine (viewer (step s fl)))
  ∧ length (inFlight (step s fl)) ≤ 1.
Proof.
  intros Halone (Herror & Hwaiting & Hlen).
  destruct s as [u|i]; unfold AsyncUploads.step.
  - destruct (inFlight fl) as [|p rest] eqn:Hfl; [|done].
    unfold beginUpload. destruct (upFiles u) as [[|f files]|]; [done| |done].
    destruct (upElementPresent u); cbn [viewer inFlight option_list app].
    + split; [done|]. split; [|simpl; lia]. intros _.
      apply destroyEngine_not_live.
    + split; [done|]. split; [done|simpl; lia].
  - destruct (inFlight fl !! i) as [p|] eqn:Hp; [|done].
    cbn [viewer inFlight].
    assert (delete i (inFlight fl) = []) as ->.
    { apply nil_length_inv. pose proof (lookup_lt_Some _ _ _ Hp).
      rewrite length_delete by eauto. lia. }
    split; [|split; [done|simpl; lia]].
    unfold finishUpload. destruct (pendingResult p) as [engine|e]; [done|].
    intros _. apply Hwaiting. intros Hnil. by rewrite Hnil in Hp.
Qed.

Lemma runSteps_error steps : ∀ fl,
  neverOverlaps steps fl = true →
  (status (viewer fl) = "Error" → ¬ hasLiveEngine (viewer fl))
  ∧ (inFlight fl ≠ [] → ¬ hasLiveEngine (viewer fl))
  ∧ length (inFlight fl) ≤ 1 →
  status (viewer (runSteps steps fl)) = "Error" →
  ¬ hasLiveEngine (viewer (runSteps steps fl)).
Proof.
  induction steps as [|s steps IH]; intros fl Hnever Hinv; [by destruct Hinv|].
  cbn [AsyncUploads.neverOverlaps] in Hnever. cbn [AsyncUploads.runSteps foldl].
  apply IH.
  - by destruct s, (inFlight fl).
  - apply step_error; [|done]. by destruct s, (inFlight fl).
Qed.

End AsyncProperties.

(** X11. However uploads overlap, each beginning and finishing when it
    may, a status of Ready means that the ref holds an engine on which
    [destroy()] has not been called. When no upload begins while another one
    waits, a status of Error means that the ref holds no such engine: a
    failed upload has destroyed the engine of the volume shown before it. *)
Theorem status_tells_engine
    (createObjectURL : File → string)
    (loadAndCacheImage : string → Result DicomImage)
    (sortImageIdsAndGetSpacing : list string → option SortResult)
    (fround : Q → Q) (steps : list Step) :
  let fl := runSteps createObjectURL loadAndCacheImage sortImageIdsAndGetSpacing
              fround steps idle in
  (status (viewer fl) = "Ready" → hasLiveEngine (viewer fl))
  ∧ (neverOverlaps createObjectURL loadAndCacheImage sortImageIdsAndGetSpacing
       fround steps idle = true →
     status (viewer fl) = "Error" → ¬ hasLiveEngine (viewer fl)).
Proof.
  split.
  - by apply runSteps_ready.
  - intros Hnever. apply runSteps_error; [done|].
    split; [done|]. split; [done|]. simpl. lia.
Qed.

(** Where uploads do overlap, Error can stand beside a live engine: an
    upload that will show its volume begins, one that will fail begins, the
    first finishes and then the second. *)
Example overlapping_uploads :
  let fl := runSteps sampleUrl (loaderOf uploadedSlices) (spatialSorter noGeometry)
              identityRound [Start showing; Start failing; Finish 0; Finish 0] idle in
  neverOverlaps sampleUrl (loaderOf uploadedSlices) (spatialSorter noGeometry)
    identityRound [Start showing; Start failing; Finish 0; Finish 0] idle = false
  ∧ status (viewer fl) = "Error"
  ∧ hasLiveEngine (viewer fl).
Proof.
  split; [vm_compute; reflexivity|]. split; [vm_compute; reflexivity|].
  eexists. split; vm_compute; reflexivity.
Qed.

(** ** From the file names to the slots of the volume *)

Lemma mapM_Result_lookup {A B} (f : A → Result B) (l : list A) (k : list B) i x :
  mapM f l = Ok k → l !! i = Some x → ∃ y, f x = Ok y ∧ k !! i = Some y.
Proof.
  revert k i. induction l as [|a l IH]; intros k i Hk Hi; [done|].
  apply mapM_Result_cons_inv in Hk as (y & k' & -> & Ha & Hl).
  destruct i as [|i]; simpl in Hi.
  - injection Hi as <-. eauto.
  - by apply (IH k' i).
Qed.

Lemma createVolumeViewport_uniform
    (loadAndCacheImage : string → Result DicomImage)
    (sortImageIdsAndGetSpacing : list string → option SortResult)
    (fround : Q → Q) (imageIds : list string) (t0 t1 : N)
    (images : list DicomImage) (sorted : SortedImages) (image0 : DicomImage) :
  mapM loadAndCacheImage imageIds = Ok images →
  sortImages sortImageIdsAndGetSpacing imageIds images = Ok sorted →
  sortedImages sorted !! 0 = Some (Some image0) →
  forallb (sameGridAndKind image0) (sortedImages sorted) = true →
  ∃ vol,
    createVolumeViewport loadAndCacheImage sortImageIdsAndGetSpacing fround
      imageIds t0 t1 = Ok vol
    ∧ ∀ z img, sortedImages sorted !! z = Some (Some img) →
        take (rows image0 * columns image0)
          (drop (z * (rows image0 * columns image0)) (elements (scalarData vol)))
          = elements (getPixelData img).
Proof.
  intros Hload Hsort H0 Hsame.
  destruct (createVolumeViewport_fits loadAndCacheImage sortImageIdsAndGetSpacing
              fround imageIds t0 t1 images sorted image0 Hload Hsort H0)
    as (buf & Hrun & Hc & Hl & Hslots); [by apply sameGridAndKind_fits|].
  eexists. split; [exact Hrun|]. simpl. intros z img Hz.
  assert (constructor (getPixelData img) = constructor (getPixelData image0)
          ∧ arrayLength (getPixelData img) = rows image0 * columns image0)
    as [Hk Hlen].
  { rewrite forallb_forall in Hsame.
    specialize (Hsame (Some img)). simpl in Hsame.
    assert (In (Some img) (sortedImages sorted)) as Hin
      by (apply list_elem_of_In; eapply list_elem_of_lookup_2; eauto).
    apply Hsame, bool_decide_eq_true in Hin as (-> & -> & -> & ->). done. }
  apply list_eq. intros p. rewrite lookup_take, lookup_drop. case_decide as Hp.
  - rewrite (Hslots z img p Hz Hp). rewrite decide_True by lia.
    rewrite Hk. destruct (elements (getPixelData img) !! p); simpl; [|done].
    by rewrite convertElement_same.
  - symmetry. apply lookup_ge_None_2. unfold arrayLength in Hlen. lia.
Qed.

(** X12. When the element is there, the rendering calls do not throw, all
    the files decode to slices of one grid and kind and the library sorter
    throws, so that the fallback order is taken, the upload ends with the
    status Ready and a live engine whose volume stacks the files by the
    number in their names: slot [k] of the buffer is the pixel data decoded
    from the file at position [k] of the sorted file objects. *)
Theorem upload_stacks_by_file_number
    (createObjectURL : File → string)
    (loadAndCacheImage : string → Result DicomImage)
    (sortImageIdsAndGetSpacing : list string → option SortResult)
    (fround : Q → Q) (present : LocalVolume → Result unit)
    (files : list File) (t0 t1 : N) (st : ViewerState)
    (images : list DicomImage) (image0 : DicomImage) :
  files ≠ [] →
  mapM loadAndCacheImage (imageIdsOf createObjectURL files) = Ok images →
  sortImageIdsAndGetSpacing (imageIdsOf createObjectURL files) = None →
  images !! 0 = Some image0 →
  forallb (sameGridAndKind image0) (Some <$> images) = true →
  (∀ vol, present vol = Ok ()) →
  let st' := handleFileUpload createObjectURL loadAndCacheImage
               sortImageIdsAndGetSpacing fround (Ok ()) present
               (Some files) true t0 t1 st in
  status st' = "Ready"
  ∧ ∃ engine,
      renderingEngineRef st' = Some engine
      ∧ destroyed engine = false
      ∧ ∀ k obj, fileObjectsOf files !! k = Some obj →
          ∃ img,
            loadAndCacheImage ("wadouri:" +:+ createObjectURL (file obj)) = Ok img
            ∧ take (rows image0 * columns image0)
                (drop (k * (rows image0 * columns image0))
                   (elements (scalarData (shownVolume engine))))
              = elements (getPixelData img).
Proof.
  intros Hne Hload Hnone H0 Hsame Hpresent st'.
  set (sorted := {| sortedImages := Some <$> images;
                    zSpacing := orNumber (sliceThickness image0) 1;
                    volumeOrigin := orArray (origin image0) (0, 0, 0)%Q |}).
  assert (sortImages sortImageIdsAndGetSpacing (imageIdsOf createObjectURL files)
            images = Ok sorted) as Hsort.
  { unfold sortImages. by rewrite Hnone, H0. }
  destruct (createVolumeViewport_uniform loadAndCacheImage sortImageIdsAndGetSpacing
              fround (imageIdsOf createObjectURL files) t0 t1 images sorted image0
              Hload Hsort) as (vol & Hrun & Hslots).
  { simpl. by rewrite list_lookup_fmap, H0. }
  { done. }
  assert (st' = revokeAll (objectUrlsOf createObjectURL files)
                  (setStatus "Ready"
                     (setEngine (mkEngine vol false)
                        (destroyEngine (setStatus "Loading volume..." st)))))
    as ->.
  { subst st'. unfold handleFileUpload. destruct files as [|f files]; [done|].
    unfold createViewport. cbn [mbind Result_bind]. rewrite Hrun.
    cbn [mbind Result_bind]. by rewrite Hpresent. }
  split; [done|]. eexists. split; [done|]. split; [done|].
  intros k obj Hk.
  assert (imageIdsOf createObjectURL files !! k
          = Some ("wadouri:" +:+ createObjectURL (file obj))) as Hid.
  { unfold imageIdsOf, objectUrlsOf. by rewrite !list_lookup_fmap, Hk. }
  destruct (mapM_Result_lookup _ _ _ _ _ Hload Hid) as (img & Himg & Hik).
  exists img. split; [done|]. apply Hslots. simpl.
  by rewrite list_lookup_fmap, Hik.
Qed.

Lemma upload_stacks_by_file_number_witness :
  let st' := handleFileUpload sampleUrl (loaderOf uploadedSlices)
               (spatialSorter noGeometry) identityRound (Ok ()) alwaysPresents
               (Some sampleFiles) true 0 0 initialState in
  status st' = "Ready"
  ∧ ∃ engine,
      renderingEngineRef st' = Some engine
      ∧ destroyed engine = false
      ∧ ∀ k obj, fileObjectsOf sampleFiles !! k = Some obj →
          ∃ img,
            loaderOf uploadedSlices ("wadouri:" +:+ sampleUrl (file obj)) = Ok img
            ∧ take (1 * 2)
                (drop (k * (1 * 2)) (elements (scalarData (shownVolume engine))))
              = elements (getPixelData img).
Proof.
  refine (upload_stacks_by_file_number sampleUrl (loaderOf uploadedSlices)
            (spatialSorter noGeometry) identityRound alwaysPresents sampleFiles
            0 0 initialState
            [bareImage 1 2 (mkTypedArray Int16Array [11; 12]%Z);
             bareImage 1 2 (mkTypedArray Int16Array [21; 22]%Z);
             bareImage 1 2 (mkTypedArray Int16Array [31; 32]%Z)]
            (bareImage 1 2 (mkTypedArray Int16Array [11; 12]%Z)) _ _ _ _ _ _);
    first [discriminate | reflexivity | (vm_compute; reflexivity)].
Defined.

(** * The cursors *)

Import toolBindings cursors quoted.

(** ** The cursor follows the bound tool *)

(** X13. For every binding that [setupToolGroup] activates, a mouse-down
    with the binding's button and exactly its modifier key shows the cursor
    of the tool the binding starts: the rotate cursor for the trackball
    tool, the active pan cursor for the pan tool and the active zoom cursor
    for the zoom tool, whatever the cursor was before. *)
Theorem cursor_matches_binding (t : Tool) (b : Binding) (c : CursorStyle) :
  (t, b) ∈ activeBindings →
  handleMouseDown (eventOf b) c = cursorOf t.
Proof.
  unfold activeBindings. simpl. intros H.
  repeat (apply elem_of_cons in H as [[= -> ->]|H]; [reflexivity|]).
  by apply elem_of_nil in H.
Qed.

Lemma cursor_matches_binding_witness :
  handleMouseDown (eventOf (mkBinding Primary (Some Shift))) cursorRotate
    = cursorOf PanTool.
Proof.
  apply (cursor_matches_binding PanTool (mkBinding Primary (Some Shift)) cursorRotate).
  unfold activeBindings. simpl. do 2 right. left.
Defined.

(** ** The encoded SVG stays inside its quotes *)

Lemma stringAll_app p a b :
  stringAll p (a +:+ b) = stringAll p a && stringAll p b.
Proof.
  induction a as [|c a IH]; simpl; [done|]. rewrite IH. by rewrite andb_assoc.
Qed.

Lemma stringAll_impl (p q : ascii → bool) s :
  (∀ c, p c = true → q c = true) → stringAll p s = true → stringAll q s = true.
Proof.
  intros Hpq. induction s as [|c s IH]; simpl; [done|].
  intros [Hc Hs]%andb_prop. by rewrite (Hpq c Hc), IH.
Qed.

Lemma hexDigit_encoded n : n < 16 → isEncoded (hexDigit n) = true.
Proof.
  intros Hn. do 16 (destruct n as [|n]; [reflexivity|]). lia.
Qed.

Lemma encodeURIComponent_encoded s :
  stringAll isEncoded (encodeURIComponent s) = true.
Proof.
  induction s as [|c s IH]; [done|]. cbn [encodeURIComponent].
  rewrite stringAll_app, IH, andb_true_r.
  destruct (isUnreserved c) eqn:Hc.
  - cbn [stringAll]. unfold isEncoded. by rewrite Hc.
  - unfold percentEncode. cbn [stringAll].
    rewrite !hexDigit_encoded; [done| |].
    + apply Nat.mod_upper_bound. done.
    + apply Nat.Div0.div_lt_upper_bound. pose proof (nat_ascii_bounded c). lia.
Qed.

Lemma isEncoded_not_quote c : isEncoded c = true → Ascii.eqb c quote = false.
Proof.
  intros Hc. destruct (Ascii.eqb_spec c quote) as [->|]; [|done].
  by vm_compute in Hc.
Qed.

Lemma untilQuote_app a b :
  stringAll (λ c, negb (Ascii.eqb c quote)) a = true →
  untilQuote (a +:+ String quote b) = a.
Proof.
  induction a as [|c a IH]; simpl; [done|].
  intros [Hc Ha]%andb_prop. apply negb_true_iff in Hc. rewrite Hc.
  by rewrite IH.
Qed.

Lemma encoded_no_quote s :
  stringAll isEncoded s = true →
  stringAll (λ c, negb (Ascii.eqb c quote)) s = true.
Proof.
  apply stringAll_impl. intros c Hc. by rewrite isEncoded_not_quote.
Qed.

Lemma cursor_url_quoted_part svg hotspotX hotspotY :
  ∃ rest,
    createSvgCursor svg hotspotX hotspotY = "url(" +:+ String quote rest
    ∧ untilQuote rest = "data:image/svg+xml," +:+ encodeURIComponent svg.
Proof.
  unfold createSvgCursor. cbn [String.append]. eexists. split; [reflexivity|].
  cbn -[pretty encodeURIComponent].
  rewrite untilQuote_app; [done|]. rewrite stringAll_app.
  rewrite (encoded_no_quote _ (encodeURIComponent_encoded svg)). reflexivity.
Qed.

(** X14. [encodeURIComponent] puts out only unreserved characters and [%],
    never a double quote; so in the value [createSvgCursor] builds, the
    string that the first quote opens ends at the quote the template puts
    after the encoded SVG, and is the data URL as a whole, whatever the SVG
    text contains. *)
Theorem cursor_url_stays_quoted (svg : string) (hotspotX hotspotY : option Z) :
  stringAll isEncoded (encodeURIComponent svg) = true
  ∧ ∃ rest,
      createSvgCursor svg hotspotX hotspotY = "url(" +:+ String quote rest
      ∧ untilQuote rest = "data:image/svg+xml," +:+ encodeURIComponent svg.
Proof.
  split; [apply encodeURIComponent_encoded|apply cursor_url_quoted_part].
Qed.

(** ** The SVG can be read back *)

Lemma hex_round_trip c :
  ascii_of_nat (16 * hexValue (hexDigit (nat_of_ascii c / 16))
                + hexValue (hexDigit (nat_of_ascii c mod 16))) = c.
Proof. destruct c as [[] [] [] [] [] [] [] []]; reflexivity. Qed.

Lemma unreserved_not_percent c : isUnreserved c = true → Ascii.eqb c "%" = false.
Proof.
  intros Hc. destruct (Ascii.eqb_spec c "%") as [->|]; [|done].
  by vm_compute in Hc.
Qed.

Lemma percentDecode_encode s : percentDecode (encodeURIComponent s) = s.
Proof.
  induction s as [|c s IH]; [done|]. cbn [encodeURIComponent].
  destruct (isUnreserved c) eqn:Hc.
  - change (String c "" +:+ encodeURIComponent s)
      with (String c (encodeURIComponent s)).
    cbn [percentDecode]. rewrite (unreserved_not_percent c Hc).
    destruct (encodeURIComponent s) as [|h [|l rest]]; by rewrite IH.
  - change (percentEncode c +:+ encodeURIComponent s)
      with (String "%" (String (hexDigit (nat_of_ascii c / 16))
              (String (hexDigit (nat_of_ascii c mod 16)) (encodeURIComponent s)))).
    cbn [percentDecode]. change (Ascii.eqb "%" "%") with true. cbv iota.
    by rewrite hex_round_trip, IH.
Qed.

(** X15. Percent-decoding the encoded SVG gives the SVG back, so the
    encoding loses nothing: two SVG texts with the same encoding, or with
    the same cursor value for the same hotspot, are the same text. *)
Theorem svg_read_back (svg svg' : string) (hotspotX hotspotY : option Z) :
  percentDecode (encodeURIComponent svg) = svg
  ∧ (encodeURIComponent svg = encodeURIComponent svg' → svg = svg')
  ∧ (createSvgCursor svg hotspotX hotspotY = createSvgCursor svg' hotspotX hotspotY →
     svg = svg').
Proof.
  split; [apply percentDecode_encode|].
  assert (encodeURIComponent svg = encodeURIComponent svg' → svg = svg') as Hinj.
  { intros H. by rewrite <- (percentDecode_encode svg), H, percentDecode_encode. }
  split; [done|]. intros H.
  destruct (cursor_url_quoted_part svg hotspotX hotspotY) as (rest & Hr & Hq).
  destruct (cursor_url_quoted_part svg' hotspotX hotspotY) as (rest' & Hr' & Hq').
  rewrite Hr, Hr' in H. simpl in H. injection H as H.
  rewrite H in Hq. rewrite Hq' in Hq. simpl in Hq. injection Hq as Hq.
  by apply Hinj.
Qed.

(** * The one-time initialization *)

Import initCornerstone InitSamples.

Lemma runCalls_spec throws calls :
  let '(r, done) := runCalls throws calls in
  done `prefix_of` calls
  ∧ Forall (λ c, throws c = None) done
  ∧ (r = Ok () → done = calls)
  ∧ ((∃ c, c ∈ calls ∧ is_Some (throws c)) → ∃ e, r = Throw e).
Proof.
  induction calls as [|c calls IH]; simpl.
  - split; [done|]. split; [done|]. split; [done|].
    intros (c & Hc & _). by apply elem_of_nil in Hc.
  - destruct (throws c) as [e|] eqn:Hc.
    + split; [apply prefix_nil|]. split; [done|]. split; [done|]. eauto.
    + destruct (runCalls throws calls) as [r done].
      destruct IH as (Hpre & Hall & Hok & Hthrow).
      split; [by apply prefix_cons|]. split; [by constructor|].
      split; [by intros ->%Hok|].
      intros (c' & [->|Hin]%elem_of_cons & Hs).
      * rewrite Hc in Hs. by destruct Hs.
      * apply Hthrow. eauto.
Qed.

Lemma initCornerstone_initialized env st :
  isInitialized (initCornerstone env st).2 = true.
Proof.
  unfold initCornerstone. destruct (isInitialized st) eqn:Hi; [done|].
  by destruct (runCalls _ _).
Qed.

Lemma initRepeatedly_initialized envs st :
  isInitialized st = true → initRepeatedly envs st = st.
Proof.
  intros Hi. unfold initRepeatedly.
  induction envs as [|env envs IH]; [done|]. cbn [foldl].
  unfold initCornerstone at 2. by rewrite Hi.
Qed.

Lemma initialization_runs_once_aux (env : Environment)
    (envs : list Environment) (st : InitState) :
  let st1 := (initCornerstone env st).2 in
  (∀ env', initCornerstone env' st1 = (Ok (), st1))
  ∧ initRepeatedly envs st1 = st1.
Proof.
  intros st1. pose proof (initCornerstone_initialized env st) as Hi.
  fold st1 in Hi. split.
  - intros env'. unfold initCornerstone. by rewrite Hi.
  - by apply initRepeatedly_initialized.
Qed.

(** X16. The initialization runs at most once: after any first call,
    also one that failed, every further call returns at once without
    a call to a collaborator, in whatever environment. *)
Theorem initialization_runs_once (env env' : Environment)
    (envs : list Environment) (st : InitState) :
  let st1 := (initCornerstone env st).2 in
  initCornerstone env' st1 = (Ok (), st1)
  ∧ initRepeatedly envs st1 = st1.
Proof.
  intros st1. destruct (initialization_runs_once_aux env envs st) as [H1 H2].
  split; [apply H1|apply H2].
Qed.

(** X17. A failure of the first initialization is for good: the call that
    threw, whichever it is, is not among the calls made, then or in any
    later initialization, even in an environment where nothing throws; and
    the first initialization did fail. With [coreInit] rejecting, no image
    loader is ever registered. *)
Theorem failed_initialization_is_final (env : Environment)
    (envs : list Environment) (c : InitCall) (e : JsError) :
  c ∈ plannedCalls env →
  throws env c = Some e →
  (∃ e', (initCornerstone env freshState).1 = Throw e')
  ∧ c ∉ performed (initRepeatedly (env :: envs) freshState).
Proof.
  intros Hc He. unfold initRepeatedly. cbn [foldl].
  fold (initRepeatedly envs (initCornerstone env freshState).2).
  rewrite (proj2 (initialization_runs_once_aux env envs freshState)).
  unfold initCornerstone. cbn [isInitialized freshState].
  pose proof (runCalls_spec (throws env) (plannedCalls env)) as Hspec.
  destruct (runCalls (throws env) (plannedCalls env)) as [r done].
  destruct Hspec as (_ & Hall & _ & Hthrow). split.
  - apply Hthrow. exists c. split; [done|]. by rewrite He.
  - cbn [snd performed app]. intros Hin.
    rewrite Forall_forall in Hall. specialize (Hall c Hin). congruence.
Qed.

Lemma failed_initialization_is_final_witness :
  (∃ e', (initCornerstone failingCore freshState).1 = Throw e')
  ∧ CoreInit ∉ performed (initRepeatedly [failingCore; healthy; healthy] freshState).
Proof.
  apply (failed_initialization_is_final failingCore [healthy; healthy] CoreInit
           (NamedError "init")).
  - by left.
  - reflexivity.
Defined.

Lemma plannedCalls_NoDup env : NoDup (plannedCalls env).
Proof.
  unfold plannedCalls.
  destruct (external _), (init _), (wadouri _); cbn [app];
    repeat (apply NoDup_cons; split;
            [intros H; repeat (apply elem_of_cons in H as [H|H]; [discriminate H|]);
             by apply elem_of_nil in H|]);
    apply NoDup_nil_2.
Qed.

Lemma orCount_positive x d : (1 ≤ d)%N → (1 ≤ orCount x d)%N.
Proof.
  intros Hd. unfold orCount. destruct x as [k|]; [|done].
  case_decide; [done|lia].
Qed.

Lemma plannedCalls_workers env n strict :
  LoaderInit n strict ∈ plannedCalls env → (1 ≤ n)%N ∧ strict = false.
Proof.
  unfold plannedCalls.
  destruct (external _), (init _), (wadouri _); cbn [app]; intros H;
    repeat (apply elem_of_cons in H as [H|H];
            [first [discriminate H | injection H as -> ->]|]);
    try (by apply elem_of_nil in H);
    (split; [|done]); by apply orCount_positive.
Qed.

(** X18. Through any sequence of initializations from the start of the
    page, no call to a collaborator is made twice (no tool is added twice
    and no loader is registered twice), the calls made are the first ones
    planned by the first initialization, in order, and the image loader is
    only ever started with at least one web worker and in non-strict mode:
    a missing or zero [hardwareConcurrency] gives 4. *)
Theorem initialization_invariants (envs : list Environment) :
  let st := initRepeatedly envs freshState in
  NoDup (performed st)
  ∧ (∀ n strict, LoaderInit n strict ∈ performed st → (1 ≤ n)%N ∧ strict = false)
  ∧ (∀ env rest, envs = env :: rest → performed st `prefix_of` plannedCalls env)
  ∧ (isInitialized st = false ↔ envs = []).
Proof.
  destruct envs as [|env rest].
  { cbn. split; [apply NoDup_nil_2|]. split; [|done].
    intros n strict H. by apply elem_of_nil in H. }
  intros st.
  assert (st = (initCornerstone env freshState).2) as Hst.
  { subst st. unfold initRepeatedly. cbn [foldl].
    apply (proj2 (initialization_runs_once_aux env rest freshState)). }
  assert (performed st `prefix_of` plannedCalls env) as Hpre.
  { rewrite Hst. unfold initCornerstone. cbn [isInitialized freshState].
    pose proof (runCalls_spec (throws env) (plannedCalls env)) as Hspec.
    destruct (runCalls _ _) as [r done]. by destruct Hspec as (? & _). }
  split; [|split; [|split]].
  - pose proof (plannedCalls_NoDup env) as Hnd. destruct Hpre as [k Hk].
    rewrite Hk in Hnd. by apply NoDup_app in Hnd as (? & _).
  - intros n strict Hin. apply (plannedCalls_workers env).
    destruct Hpre as [k ->]. apply elem_of_app. by left.
  - by intros ? ? [= <- <-].
  - rewrite Hst, initCornerstone_initialized. done.
Qed.

(** * The initial preset *)


(** * The earlier viewer and the reworked assembly *)

Import legacyViewer.

Lemma list_fmap_inserts {A B} (f : A → B) (k l : list A) : ∀ i,
  f <$> list_inserts i k l = list_inserts i (f <$> k) (f <$> l).
Proof.
  induction k as [|y k IH]; intros i; simpl; [done|].
  by rewrite list_fmap_insert, IH.
Qed.

(** Whether the loop fails, and how, does not depend on the kind of the
    buffer. *)
Lemma fillScalarData_outcome sliceSize imgs : ∀ i buf1 buf2,
  arrayLength buf1 = arrayLength buf2 →
  match fillScalarData sliceSize i imgs buf1, fillScalarData sliceSize i imgs buf2 with
  | Ok _, Ok _ => True
  | Throw e1, Throw e2 => e1 = e2
  | _, _ => False
  end.
Proof.
  induction imgs as [|[img|] rest IH]; intros i buf1 buf2 Hlen; simpl; [done| |done].
  unfold set. rewrite Hlen. case_decide; simpl; [done|].
  apply IH. unfold arrayLength in *. simpl. by rewrite !length_inserts.
Qed.

(** With slices of the kind [k0] of the first buffer, a buffer of binary32
    numbers that starts as the conversion of the first stays its
    conversion. *)
Lemma fillScalarData_converted sliceSize k0 imgs : ∀ i buf1 buf2 out1 out2,
  Forall (λ o, ∃ img, o = Some img ∧ constructor (getPixelData img) = k0) imgs →
  constructor buf1 = k0 →
  constructor buf2 = Float32Array →
  elements buf2 = convertElement k0 Float32Array <$> elements buf1 →
  fillScalarData sliceSize i imgs buf1 = Ok out1 →
  fillScalarData sliceSize i imgs buf2 = Ok out2 →
  elements out2 = convertElement k0 Float32Array <$> elements out1.
Proof.
  induction imgs as [|o rest IH]; intros i buf1 buf2 out1 out2 Hall Hk1 Hk2 Hrel;
    simpl.
  - by intros [= <-] [= <-].
  - apply Forall_cons in Hall as [(img & -> & Hk) Hall].
    intros (b1 & Hs1 & Hf1)%bind_Ok_inv (b2 & Hs2 & Hf2)%bind_Ok_inv.
    apply set_Ok_inv in Hs1 as (_ & Hc1 & He1).
    apply set_Ok_inv in Hs2 as (_ & Hc2 & He2).
    apply (IH (S i) b1 b2 out1 out2 Hall); [congruence..| |done|done].
    rewrite He2, He1, list_fmap_inserts, Hrel, Hk, Hk1, Hk2.
    f_equal. rewrite <- list_fmap_compose. apply list_fmap_ext.
    intros j raw _. simpl. by rewrite convertElement_same.
Qed.

(** X20. Where the library sorter throws, the reworked assembly and the
    earlier viewer's succeed on the same inputs and fail on the same inputs,
    and with the same error when it is not a load that fails; their volumes
    have the same dimensions, in-plane spacing, origin
    and direction; the earlier buffer is always a [Float32Array], and when
    all slices are of the kind of the reworked buffer, each of its elements
    is the binary32 conversion of the element the reworked buffer holds
    there. *)
Theorem reworked_refines_legacy
    (loadAndCacheImage : string → Result DicomImage)
    (sortImageIdsAndGetSpacing : list string → option SortResult)
    (imagePositionPatient : string → option Point3)
    (sqrt fround : Q → Q) (imageIds : list string) (t0 t1 t0' t1' : N) :
  sortImageIdsAndGetSpacing imageIds = None →
  match createVolumeViewport loadAndCacheImage sortImageIdsAndGetSpacing fround
          imageIds t0 t1,
        renderVolume loadAndCacheImage imagePositionPatient sqrt fround
          imageIds t0' t1' with
  | Ok vol, Ok old =>
      legacyDimensions old = dimensions vol
      ∧ (legacySpacing old).1 = (spacing vol).1
      ∧ legacyOrigin old = volumeOriginOf vol
      ∧ legacyDirection old = volumeDirection vol
      ∧ constructor (legacyScalarData old) = Float32Array
      ∧ (∀ images, mapM loadAndCacheImage imageIds = Ok images →
           Forall (λ img, constructor (getPixelData img)
                          = constructor (scalarData vol)) images →
           elements (legacyScalarData old)
             = convertElement (constructor (scalarData vol)) Float32Array
                 <$> elements (scalarData vol))
  | Throw e, Throw e' =>
      ∀ images, mapM loadAndCacheImage imageIds = Ok images → e = e'
  | _, _ => False
  end.
Proof.
  intros Hnone. unfold createVolumeViewport, renderVolume, sortImages.
  rewrite Hnone. destruct (mapM loadAndCacheImage imageIds) as [images|e]; [|done].
  cbn [mbind Result_bind]. destruct (images !! 0) as [image0|] eqn:H0; [|done].
  cbn [mbind Result_bind sortedImages]. rewrite list_lookup_fmap, H0.
  cbn [fmap option_fmap option_map]. rewrite length_fmap.
  set (sz := rows image0 * columns image0).
  set (buf1 := newTypedArray (constructor (getPixelData image0)) (sz * length images)).
  set (buf2 := newTypedArray Float32Array (sz * length images)).
  pose proof (fillScalarData_outcome sz (Some <$> images) 0 buf1 buf2) as Hout.
  destruct (fillScalarData sz 0 (Some <$> images) buf1) as [out1|e1] eqn:H1;
    destruct (fillScalarData sz 0 (Some <$> images) buf2) as [out2|e2] eqn:H2;
    cbn [mbind Result_bind];
    try (by intros; apply Hout; unfold buf1, buf2, arrayLength; simpl;
            rewrite !length_replicate).
  destruct (fillScalarData_shape _ _ _ _ _ H1) as [Hc1 _].
  destruct (fillScalarData_shape _ _ _ _ _ H2) as [Hc2 _].
  unfold localVolumeOf.
  cbn [legacyDimensions dimensions legacySpacing spacing legacyOrigin
       volumeOriginOf legacyDirection volumeDirection legacyScalarData scalarData
       sortedImages volumeOrigin fst snd].
  rewrite length_fmap. do 4 (split; [done|]). split; [done|].
  intros images' [= <-] Hall. rewrite Hc1.
  eapply (fillScalarData_converted sz _ (Some <$> images) 0 buf1 buf2);
    [|done|done| |done|done].
  - rewrite Forall_fmap. eapply Forall_impl; [exact Hall|].
    intros img Himg. exists img. split; [done|]. simpl in Himg.
    by rewrite Himg, Hc1.
  - unfold buf1, buf2. cbn [elements newTypedArray constructor].
    rewrite fmap_replicate. f_equal.
    by destruct (constructor (getPixelData image0)).
Qed.

Lemma reworked_refines_legacy_witness :
  match createVolumeViewport (loaderOf threeSlices) (spatialSorter noGeometry)
          identityRound ["a"; "b"; "c"] 0 0,
        renderVolume (loaderOf threeSlices) noPosition identitySqrt identityRound
          ["a"; "b"; "c"] 1 1 with
  | Ok vol, Ok old =>
      legacyDimensions old = dimensions vol
      ∧ (legacySpacing old).1 = (spacing vol).1
      ∧ legacyOrigin old = volumeOriginOf vol
      ∧ legacyDirection old = volumeDirection vol
      ∧ constructor (legacyScalarData old) = Float32Array
      ∧ (∀ images, mapM (loaderOf threeSlices) ["a"; "b"; "c"] = Ok images →
           Forall (λ img, constructor (getPixelData img)
                          = constructor (scalarData vol)) images →
           elements (legacyScalarData old)
             = convertElement (constructor (scalarData vol)) Float32Array
                 <$> elements (scalarData vol))
  | Throw e, Throw e' =>
      ∀ images, mapM (loaderOf threeSlices) ["a"; "b"; "c"] = Ok images → e = e'
  | _, _ => False
  end.
Proof.
  apply (reworked_refines_legacy (loaderOf threeSlices) (spatialSorter noGeometry)
           noPosition identitySqrt identityRound ["a"; "b"; "c"] 0 0 1 1).
  reflexivity.
Defined.

(** ** The runtime model on known values *)

Module RuntimeExamples.
Local Open Scope Z_scope.
Example f32OfInt_1 : f32OfInt 1 = 0x3F800000. Proof. reflexivity. Qed.
Example f32OfInt_m2 : f32OfInt (-2) = 0xC0000000. Proof. reflexivity. Qed.
Example f32OfInt_1000 : f32OfInt 1000 = 0x447A0000. Proof. reflexivity. Qed.
Example f32Trunc_pi : f32Trunc 0x40490FDB = 3. Proof. reflexivity. Qed.
Example f32Trunc_m1000_5 : f32Trunc 0xC47A2000 = -1000. Proof. reflexivity. Qed.
Example f32Trunc_nan : f32Trunc 0x7FC00000 = 0. Proof. reflexivity. Qed.
Example f32Trunc_big : f32Trunc 0x4B800000 = 16777216. Proof. reflexivity. Qed.
Example conv_i8_u16 : convertElement Int8Array Uint16Array 255 = 65535. Proof. reflexivity. Qed.
Example conv_u16_i16 : convertElement Uint16Array Int16Array 40000 = 40000. Proof. reflexivity. Qed.
Example pretty_test : ("FOR-" +:+ pretty 1700000000000%N) = "FOR-1700000000000". Proof. vm_compute. reflexivity. Qed.
End RuntimeExamples.


